(** * The video crawler of python_scraper, embedded and verified

    The development follows [src/python_scraper/web_scraper.py] (the crawl
    controller [VideoScraper]), [src/python_scraper/youtube_info.py]
    (the info-only resolution utility) and
    [src/python_scraper/youtube_downloader.py] (the download utility, but
    for its [progress_hook], which rounds floating-point numbers).

    Python objects are modelled as follows.
    - [str] is [string], read one character for each [ascii]: the strings
      of the model are those whose code points are below 256.  [in],
      [lower], [strip] and slicing are written out in module [Str].
    - A candidate video is a Python [dict] with string keys and string values:
      a [gmap string string].
    - [self.progress] is created by [__init__] with all its counters and keys
      are only ever added: it is the record [Progress.t]; the keyword
      arguments of [update_progress] are the constructors of [kwarg].
    - [self.visited_urls] is a [gset string].
    - Exceptions are the [Raise] outcome of [result], which holds [str(e)],
      with the texts of Python 3.11 for the exceptions of the language
      itself; methods of the scraper live in the state-and-exception monad
      [M].
    - The libraries the code calls ([requests], [bs4], [urllib.parse],
      [datetime], [yt_dlp]) are parameters: the interface [Bs4] for parsed
      markup, and section variables for the others.  [urljoin] and
      [urlparse] can raise ([ValueError], on a malformed network location),
      as a request can. *)

From Stdlib Require Import ZArith Lia Ascii.
From stdpp Require Import base option list strings pretty gmap.

Local Open Scope Z_scope.
Set Warnings "-register-all".

(** ** Python strings *)

(** A string is the sequence of its characters, one [ascii] for each: a
    character is a code point below 256, and text with other characters is
    outside the model. *)

Module Str.

(** The lower case of a character: that of A-Z and, above 127, of the
    capital letters 192-222 of Latin-1 but the sign 215. *)
Definition lower_ascii (c : ascii) : ascii :=
  let n := Ascii.nat_of_ascii c in
  if ((Nat.leb 65 n && Nat.leb n 90) ||
      (Nat.leb 192 n && Nat.leb n 222 && negb (Nat.eqb n 215)))%bool
  then Ascii.ascii_of_nat (n + 32) else c.

(** [s.lower()] *)
Fixpoint lower (s : string) : string :=
  match s with
  | EmptyString => EmptyString
  | String c s' => String (lower_ascii c) (lower s')
  end.

(** [needle in hay] *)
Fixpoint contains (needle hay : string) : bool :=
  String.prefix needle hay ||
  match hay with
  | EmptyString => false
  | String _ hay' => contains needle hay'
  end.

(** [s.endswith(suffix)] *)
Definition endswith (s suffix : string) : bool :=
  String.prefix (String.rev suffix) (String.rev s).

(** [c.isspace()]: the characters 9-13, 28-32, 133 and 160. *)
Definition is_space (c : ascii) : bool :=
  let n := Ascii.nat_of_ascii c in
  ((Nat.leb 9 n && Nat.leb n 13) || (Nat.leb 28 n && Nat.leb n 32) ||
   Nat.eqb n 133 || Nat.eqb n 160)%bool.

Fixpoint lstrip (s : string) : string :=
  match s with
  | EmptyString => EmptyString
  | String c s' => if is_space c then lstrip s' else s
  end.

(** [s.strip()] *)
Definition strip (s : string) : string :=
  String.rev (lstrip (String.rev (lstrip s))).

(** [s[:n]] *)
Definition slice_to (n : nat) (s : string) : string := String.substring 0 n s.

(** Truth value of a [str]: the empty string is falsy. *)
Definition truthy (s : string) : bool := negb (String.eqb s "").

(** Truth value of [d.get(k)] or of a lambda argument: [None] and the
    empty string are falsy. *)
Definition truthy_opt (o : option string) : bool :=
  match o with Some s => truthy s | None => false end.

End Str.

(** ** Outcomes and the exception monad of pure code *)

(** What a Python expression gives: a value, or an exception [e] of which
    the code only ever reads [str(e)]. *)
Inductive result (A : Type) : Type :=
  | Ok (a : A)
  | Raise (e : string).
Arguments Ok {A} a.
Arguments Raise {A} e.

#[global] Instance result_ret : MRet result := @Ok.
#[global] Instance result_bind : MBind result := λ A B f m,
  match m with
  | Ok a => f a
  | Raise e => Raise e
  end.

(** [try: r / except Exception as e: handler(str(e))] for pure code. *)
Definition catch {A} (r : result A) (handler : string → A) : A :=
  match r with
  | Ok a => a
  | Raise e => handler e
  end.

(** ** Candidate videos *)

(** [video['url']]: a subscript raises [KeyError] on a missing key, and
    [str] of a [KeyError] is the key in quotes. *)
Definition getitem (d : gmap string string) (k : string) : result string :=
  match d !! k with
  | Some v => Ok v
  | None => Raise ("'" +:+ k +:+ "'")
  end.

(** The [# Deduplicate] loop of [scrape_page]: [unique_videos] and
    [seen_urls] are threaded through the list. *)
Fixpoint deduplicate_from (seen_urls : gset string) (videos_on_page : list (gmap string string))
    : result (list (gmap string string)) :=
  match videos_on_page with
  | [] => Ok []
  | video :: rest =>
      u ← getitem video "url";
      if bool_decide (u ∉ seen_urls)
      then unique ← deduplicate_from ({[u]} ∪ seen_urls) rest; Ok (video :: unique)
      else deduplicate_from seen_urls rest
  end.

Definition deduplicate (videos_on_page : list (gmap string string)) :=
  deduplicate_from ∅ videos_on_page.

(** The urls of a list of candidates: [[v.get('url') for v in videos]]. *)
Definition urls (videos : list (gmap string string)) : list (option string) :=
  (λ v : gmap string string, v !! "url") <$> videos.

(** ** The progress record *)

Module Progress.

Record t := mk {
  status : string;
  pages_scraped : Z;
  videos_found : Z;
  videos_downloaded : Z;
  errors : Z;
  start_time : string;
  current_url : option string;
  last_error : option string;
  total_to_download : option Z;
  current_time : option string;
}.

(** The keyword arguments the code passes to [update_progress]. *)
Inductive kwarg :=
  | Status (v : string)
  | PagesScraped (v : Z)
  | VideosFound (v : Z)
  | VideosDownloaded (v : Z)
  | Errors (v : Z)
  | CurrentUrl (v : string)
  | LastError (v : string)
  | TotalToDownload (v : Z).

Definition set (p : t) (kw : kwarg) : t :=
  match kw with
  | Status v => mk v (pages_scraped p) (videos_found p) (videos_downloaded p) (errors p)
                   (start_time p) (current_url p) (last_error p) (total_to_download p) (current_time p)
  | PagesScraped v => mk (status p) v (videos_found p) (videos_downloaded p) (errors p)
                   (start_time p) (current_url p) (last_error p) (total_to_download p) (current_time p)
  | VideosFound v => mk (status p) (pages_scraped p) v (videos_downloaded p) (errors p)
                   (start_time p) (current_url p) (last_error p) (total_to_download p) (current_time p)
  | VideosDownloaded v => mk (status p) (pages_scraped p) (videos_found p) v (errors p)
                   (start_time p) (current_url p) (last_error p) (total_to_download p) (current_time p)
  | Errors v => mk (status p) (pages_scraped p) (videos_found p) (videos_downloaded p) v
                   (start_time p) (current_url p) (last_error p) (total_to_download p) (current_time p)
  | CurrentUrl v => mk (status p) (pages_scraped p) (videos_found p) (videos_downloaded p) (errors p)
                   (start_time p) (Some v) (last_error p) (total_to_download p) (current_time p)
  | LastError v => mk (status p) (pages_scraped p) (videos_found p) (videos_downloaded p) (errors p)
                   (start_time p) (current_url p) (Some v) (total_to_download p) (current_time p)
  | TotalToDownload v => mk (status p) (pages_scraped p) (videos_found p) (videos_downloaded p) (errors p)
                   (start_time p) (current_url p) (last_error p) (Some v) (current_time p)
  end.

(** [self.progress.update(kwargs)] *)
Definition update (p : t) (kwargs : list kwarg) : t := foldl set p kwargs.

(** [self.progress['current_time'] = ...] *)
Definition stamp (now : string) (p : t) : t :=
  mk (status p) (pages_scraped p) (videos_found p) (videos_downloaded p) (errors p)
     (start_time p) (current_url p) (last_error p) (total_to_download p) (Some now).

(** The counters of one snapshot are all at most those of another. *)
Definition counters_le (p q : t) : Prop :=
  pages_scraped p ≤ pages_scraped q ∧ videos_found p ≤ videos_found q ∧
  videos_downloaded p ≤ videos_downloaded q ∧ errors p ≤ errors q.

End Progress.

(** ** The scraper object and the world it writes to *)

Record scraper := mk_scraper {
  base_url : string;
  output_dir : string;
  job_id : string;
  visited_urls : gset string;
  videos_found : list (gmap string string);
  videos_downloaded : list (gmap string string);
  progress : Progress.t;
  (** the clock read by [datetime.now()]: the number of reads so far *)
  clock : nat;
  (** the lines printed by [update_progress], newest first *)
  stdout : list Progress.t;
  (** the contents of [progress.json] and of the results file *)
  progress_file : option Progress.t;
  results_file : option (list (gmap string string));
  (** every [self.session.get(url)] issued, newest first, with the [depth]
      of the [scrape_page] call that issued it *)
  requests : list (string * Z);
}.

Definition add_visited (url : string) (s : scraper) : scraper :=
  mk_scraper (base_url s) (output_dir s) (job_id s) ({[url]} ∪ visited_urls s) (videos_found s)
    (videos_downloaded s) (progress s) (clock s) (stdout s) (progress_file s) (results_file s)
    (requests s).

Definition extend_videos_found (unique_videos : list (gmap string string)) (s : scraper) : scraper :=
  mk_scraper (base_url s) (output_dir s) (job_id s) (visited_urls s) (videos_found s ++ unique_videos)
    (videos_downloaded s) (progress s) (clock s) (stdout s) (progress_file s) (results_file s)
    (requests s).

Definition tick (s : scraper) : scraper :=
  mk_scraper (base_url s) (output_dir s) (job_id s) (visited_urls s) (videos_found s)
    (videos_downloaded s) (progress s) (S (clock s)) (stdout s) (progress_file s) (results_file s)
    (requests s).

Definition log_request (url : string) (depth : Z) (s : scraper) : scraper :=
  mk_scraper (base_url s) (output_dir s) (job_id s) (visited_urls s) (videos_found s)
    (videos_downloaded s) (progress s) (clock s) (stdout s) (progress_file s) (results_file s)
    ((url, depth) :: requests s).

Definition write_results (s : scraper) : scraper :=
  mk_scraper (base_url s) (output_dir s) (job_id s) (visited_urls s) (videos_found s)
    (videos_downloaded s) (progress s) (clock s) (stdout s) (progress_file s)
    (Some (videos_found s)) (requests s).

(** ** The state-and-exception monad of the methods *)

(** A method runs from a state of the object to an outcome and a new state;
    what it did to the state before raising stays done.  [None] is not an
    outcome of the program: it says that the model ran out of the fuel that
    bounds the recursion of [scrape_page]. *)
Definition M (A : Type) : Type := scraper → option (result A * scraper).

#[global] Instance M_ret : MRet M := λ A a s, Some (Ok a, s).
#[global] Instance M_bind : MBind M := λ A B f m s,
  match m s with
  | Some (Ok a, s') => f a s'
  | Some (Raise e, s') => Some (Raise e, s')
  | None => None
  end.

Definition get_self : M scraper := λ s, Some (Ok s, s).
Definition modify (f : scraper → scraper) : M unit := λ s, Some (Ok tt, f s).
Definition lift {A} (r : result A) : M A := λ s, Some (r, s).

(** [try: body / except Exception as e: handler(str(e))] *)
Definition try_except {A} (body : M A) (handler : string → M A) : M A := λ s,
  match body s with
  | Some (Raise e, s') => handler e s'
  | r => r
  end.

(** [for x in l: body(x)] *)
Fixpoint for_each {A} (l : list A) (body : A → M unit) : M unit :=
  match l with
  | [] => mret tt
  | x :: l' => body x;; for_each l' body
  end.

(** ** Parsed markup: the part of bs4 the code uses *)

(** The first argument of [find_all] and [find]: no name, one tag name, or
    a list of tag names. *)
Inductive name_filter :=
  | AnyTag
  | TagName (n : string)
  | TagNames (ns : list string).

(** The value of a keyword argument of [find_all] and [find]: [key=True],
    [key='value'] or [key=lambda x: ...]. *)
Inductive attr_filter :=
  | HasAttr
  | AttrIs (v : string)
  | AttrTest (f : option string → bool).

Class Bs4 (element : Type) := {
  (** [e.find_all(name, **kwargs)], in document order *)
  find_all : element → name_filter → list (string * attr_filter) → list element;
  (** [e.name] *)
  tag_name : element → string;
  (** [e.get(key)] *)
  attr : element → string → option string;
  (** [e.text] *)
  text : element → string;
  (** an element found with [key=True] carries the attribute [key] *)
  find_all_HasAttr e nm kw k x :
    x ∈ find_all e nm kw → (k, HasAttr) ∈ kw → k ≠ "class_" → is_Some (attr x k);
}.

(** [e.find(name, **kwargs)]: the first match, or [None]. *)
Definition find `{Bs4 element} (e : element) (nm : name_filter)
    (kw : list (string * attr_filter)) : option element :=
  head (find_all e nm kw).

(** [e[key]] *)
Definition subscript `{Bs4 element} (e : element) (key : string) : result string :=
  match attr e key with
  | Some v => Ok v
  | None => Raise ("'" +:+ key +:+ "'")
  end.

(** The list [video_selectors] of [scrape_page]; each dictionary is passed to
    [find_all] as keyword arguments. *)
Definition video_selectors : list (list (string * attr_filter)) :=
  [ [("tag", AttrIs "div"); ("class_", AttrIs "video-item")];
    [("tag", AttrIs "article"); ("class_", AttrIs "video")];
    [("tag", AttrIs "div"); ("class_", AttrIs "video-container")];
    [("tag", AttrIs "a");
     ("href", AttrTest (λ x, Str.truthy_opt x &&
        match x with
        | Some x => Str.contains "video" x || Str.contains "watch" x
        | None => false
        end))];
    [("tag", AttrIs "div"); ("data-type", AttrIs "video")] ].

(** [lambda x: x and any(word in str(x).lower() for word in words)] *)
Definition class_mentions (words : list string) : attr_filter :=
  AttrTest (λ x, Str.truthy_opt x &&
    match x with
    | Some x => existsb (λ word, Str.contains word (Str.lower x)) words
    | None => false
    end).

(** The extensions of [# Avoid common non-page links]. *)
Definition non_page_extensions : list string := [".jpg"; ".png"; ".mp4"; ".mp3"; ".pdf"].

Section VideoScraper.

Context {element : Type} `{!Bs4 element}.

(** [urllib.parse.urljoin] and [urlparse(...).netloc]; both parse their
    arguments and raise [ValueError] when a network location is malformed. *)
Variable urljoin : string → string → result string.
Variable netloc : string → result string.
(** [datetime.now().isoformat()] at the n-th reading of the clock *)
Variable isoformat : nat → string.
(** Lines 64-67: [self.session.get(url, timeout=30)], [raise_for_status()]
    and the parse of the body, as one call. *)
Variable session_get : string → result element.

(** *** __init__ *)

Definition new_scraper (base_url output_dir job_id : string) : scraper :=
  {| base_url := base_url; output_dir := output_dir; job_id := job_id;
     visited_urls := ∅; videos_found := []; videos_downloaded := [];
     progress := Progress.mk "starting" 0 0 0 0 (isoformat 0%nat) None None None None;
     clock := 1; stdout := []; progress_file := None; results_file := None;
     requests := [] |}.

(** *** update_progress *)

Definition report (kwargs : list Progress.kwarg) (s : scraper) : scraper :=
  let p := Progress.stamp (isoformat (clock s)) (Progress.update (progress s) kwargs) in
  mk_scraper (base_url s) (output_dir s) (job_id s) (visited_urls s) (videos_found s)
    (videos_downloaded s) p (S (clock s)) (p :: stdout s) (Some p) (results_file s)
    (requests s).

Definition update_progress (kwargs : list Progress.kwarg) : M unit := modify (report kwargs).

(** Modelled from the spec: [save_results] is called by [scrape_page] but
    its body is not in the sources; the results file is "overwritten after
    each page" with a snapshot of the accumulated candidates. *)
Definition save_results : M unit := modify write_results.

Definition datetime_now : M string := λ s, Some (Ok (isoformat (clock s)), tick s).

(** [time.sleep(0.5)]: the pause changes nothing the model records. *)
Definition time_sleep : M unit := mret tt.

Definition http_get (url : string) (depth : Z) : M element := λ s,
  Some (session_get url, log_request url depth s).

(** *** extract_video_data *)

Definition extract_video_data (elem : element) (base_url : string)
    : M (option (gmap string string)) :=
  try_except
    (let video : gmap string string := ∅ in
     (* Try to find title *)
     let title_elem :=
       find elem (TagNames ["h1"; "h2"; "h3"; "h4"; "h5"; "h6"; "a"; "span"; "div"]) [] in
     let video :=
       match title_elem with
       | Some t =>
           if Str.truthy (Str.strip (text t))
           then <["title" := Str.slice_to 200 (Str.strip (text t))]> video
           else video
       | None => video
       end in
     (* Try to find URL *)
     let link_elem := find elem (TagName "a") [("href", HasAttr)] in
     video ← lift
       match link_elem with
       | Some l =>
           href ← subscript l "href";
           url ← urljoin base_url href;
           Ok (<["url" := url]> video)
       | None =>
           if String.eqb (tag_name elem) "a" && Str.truthy_opt (attr elem "href")
           then
             href ← subscript elem "href";
             url ← urljoin base_url href;
             Ok (<["url" := url]> video)
           else Ok video
       end;
     (* Try to find thumbnail *)
     let img_elem := find elem (TagName "img") [("src", HasAttr)] in
     video ← lift
       match img_elem with
       | Some i =>
           src ← subscript i "src";
           thumbnail ← urljoin base_url src;
           Ok (<["thumbnail" := thumbnail]> video)
       | None => Ok video
       end;
     (* Try to find duration *)
     let time_elem :=
       find elem (TagNames ["time"; "span"; "div"])
         [("class_", class_mentions ["duration"; "time"; "length"])] in
     let video :=
       match time_elem with
       | Some t => <["duration" := Str.strip (text t)]> video
       | None => video
       end in
     (* Try to find views *)
     let views_elem :=
       find elem (TagNames ["span"; "div"]) [("class_", class_mentions ["view"; "watch"])] in
     let video :=
       match views_elem with
       | Some t => <["views" := Str.strip (text t)]> video
       | None => video
       end in
     (* Add timestamp *)
     now ← datetime_now;
     let video := <["scraped_at" := now]> video in
     mret (if Str.truthy_opt (video !! "url") then Some video else None))
    (λ _, mret None).

(** *** scrape_page *)

(** The inner loop of lines 82-86: the elements of one selector are tried
    in order and the loop is left at the first one that gives a video with
    a url; the result is what that selector appends to [videos_on_page]. *)
Fixpoint scan_elements (elements : list element) (url : string)
    : M (option (gmap string string)) :=
  match elements with
  | [] => mret None
  | elem :: rest =>
      video_data ← extract_video_data elem url;
      match video_data with
      | Some video =>
          if Str.truthy_opt (video !! "url") then mret (Some video)
          else scan_elements rest url
      | None => scan_elements rest url
      end
  end.

(** The outer loop of lines 80-86 over the selectors, with the local list
    [videos_on_page] as accumulator. *)
Fixpoint scan_selectors (soup : element) (url : string)
    (selectors : list (list (string * attr_filter)))
    (videos_on_page : list (gmap string string)) : M (list (gmap string string)) :=
  match selectors with
  | [] => mret videos_on_page
  | selector :: rest =>
      let elements := find_all soup AnyTag selector in
      found ← scan_elements elements url;
      scan_selectors soup url rest (videos_on_page ++ option_list found)
  end.

(** [urlparse(absolute_url).netloc == urlparse(self.base_url).netloc]: the
    left side is evaluated first. *)
Definition same_domain (base_url absolute_url : string) : result bool :=
  target ← netloc absolute_url;
  base ← netloc base_url;
  Ok (String.eqb target base).

(** [any(ext in absolute_url.lower() for ext in [...])] *)
Definition non_page_link (absolute_url : string) : bool :=
  existsb (λ ext, Str.contains ext (Str.lower absolute_url)) non_page_extensions.

(** The body of [scrape_page]; [scrape_page] stands for the method itself
    in the recursive call of line 118. *)
Definition scrape_page_body (scrape_page : string → Z → Z → M unit)
    (url : string) (depth max_depth : Z) : M unit :=
  self ← get_self;
  if (max_depth <? depth) || bool_decide (url ∈ visited_urls self) then mret tt
  else
    modify (add_visited url);;
    try_except
      (update_progress [Progress.Status "scraping_page"; Progress.CurrentUrl url];;
       soup ← http_get url depth;
       (* Find video containers *)
       videos_on_page ← scan_selectors soup url video_selectors [];
       (* Deduplicate *)
       unique_videos ← lift (deduplicate videos_on_page);
       (* Add to total videos found *)
       modify (extend_videos_found unique_videos);;
       self ← get_self;
       update_progress
         [Progress.PagesScraped (Progress.pages_scraped (progress self) + 1);
          Progress.VideosFound (Z.of_nat (length (videos_found self)))];;
       (* Save current results *)
       save_results;;
       (* Find links to follow *)
       if depth <? max_depth then
         for_each (find_all soup (TagName "a") [("href", HasAttr)]) (λ link,
           href ← lift (subscript link "href");
           absolute_url ← lift (urljoin url href);
           (* Only follow links within same domain *)
           self ← get_self;
           lift (same_domain (base_url self) absolute_url) ≫= λ same : bool,
           if same then
             (* Avoid common non-page links *)
             if negb (non_page_link absolute_url) then
               time_sleep;;
               scrape_page absolute_url (depth + 1) max_depth
             else mret tt
           else mret tt)
       else mret tt)
      (λ e,
         self ← get_self;
         update_progress
           [Progress.Errors (Progress.errors (progress self) + 1); Progress.LastError e]).

(** The recursion of [scrape_page] descends one level per call and stops
    at [max_depth]: [fuel] bounds the number of nested calls. *)
Fixpoint scrape_page_fuel (fuel : nat) : string → Z → Z → M unit :=
  match fuel with
  | O => λ _ _ _ _, None
  | S fuel' => scrape_page_body (scrape_page_fuel fuel')
  end.

Definition scrape_page (url : string) (depth max_depth : Z) : M unit :=
  scrape_page_fuel (S (Z.to_nat (max_depth - depth))) url depth max_depth.

(** *** download_videos *)

(** The part of [download_videos] that is in the sources: the report, and
    the slice [self.videos_found[:20]] over which the submission loop runs.
    The value returned is that slice, the candidates handed to the pool. *)
Definition download_videos : M (list (gmap string string)) :=
  self ← get_self;
  if bool_decide (videos_found self = []) then
    update_progress [Progress.Status "no_videos_found"];;
    mret []
  else
    update_progress
      [Progress.Status "downloading_videos";
       Progress.TotalToDownload (Z.of_nat (length (videos_found self)))];;
    mret (take 20 (videos_found self)).

End VideoScraper.

(** ** The info-only resolution utility (youtube_info.py) *)

Module YoutubeInfo.

(** The Python values that occur in the dictionaries of yt_dlp. *)
Inductive pyval :=
  | PNone
  | PBool (b : bool)
  | PInt (n : Z)
  | PStr (s : string)
  | PList (l : list pyval)
  | PDict (d : list (string * pyval)).

Fixpoint assoc (key : string) (d : list (string * pyval)) : option pyval :=
  match d with
  | [] => None
  | (k, v) :: d' => if String.eqb k key then Some v else assoc key d'
  end.

(** [type(v).__name__] *)
Definition type_name (v : pyval) : string :=
  match v with
  | PNone => "NoneType"
  | PBool _ => "bool"
  | PInt _ => "int"
  | PStr _ => "str"
  | PList _ => "list"
  | PDict _ => "dict"
  end.

(** [info.get(key, dflt)]; only a dictionary has the method, and any other
    value raises [AttributeError]. *)
Definition dict_get (info : pyval) (key : string) (dflt : pyval) : result pyval :=
  match info with
  | PDict d => Ok (default dflt (assoc key d))
  | _ => Raise ("'" +:+ type_name info +:+ "' object has no attribute 'get'")
  end.

(** [v[:n]]; a dictionary cannot look up a slice, and a value that is no
    container has no subscript: both raise [TypeError]. *)
Definition slice_to (n : nat) (v : pyval) : result pyval :=
  match v with
  | PStr s => Ok (PStr (Str.slice_to n s))
  | PList l => Ok (PList (take n l))
  | PDict _ => Raise "unhashable type: 'slice'"
  | _ => Raise ("'" +:+ type_name v +:+ "' object is not subscriptable")
  end.

(** [len(v)]; a value that is no container raises [TypeError]. *)
Definition len (v : pyval) : result pyval :=
  match v with
  | PStr s => Ok (PInt (Z.of_nat (String.length s)))
  | PList l => Ok (PInt (Z.of_nat (length l)))
  | PDict d => Ok (PInt (Z.of_nat (length d)))
  | _ => Raise ("object of type '" +:+ type_name v +:+ "' has no len()")
  end.

(** The number of characters (or items) of a value, for the bound on the
    description. *)
Definition size_of (v : pyval) : nat :=
  match v with
  | PStr s => String.length s
  | PList l => length l
  | PDict d => length d
  | _ => 0
  end.

Section GetVideoInfo.

(** [yt_dlp.YoutubeDL(ydl_opts)] and [ydl.extract_info(url, download=False)] *)
Variable extract_info : string → result pyval.

Definition get_video_info (url : string) : gmap string pyval :=
  catch
    (info ← extract_info url;
     title ← dict_get info "title" (PStr "Unknown");
     thumbnail ← dict_get info "thumbnail" (PStr "");
     duration ← dict_get info "duration" (PInt 0);
     uploader ← dict_get info "uploader" (PStr "");
     view_count ← dict_get info "view_count" (PInt 0);
     like_count ← dict_get info "like_count" (PInt 0);
     description ← dict_get info "description" (PStr "") ≫= slice_to 500;
     formats ← dict_get info "formats" (PList []) ≫= len;
     Ok (list_to_map
       [("success", PBool true); ("title", title); ("thumbnail", thumbnail);
        ("duration", duration); ("uploader", uploader); ("view_count", view_count);
        ("like_count", like_count); ("description", description);
        ("formats", formats); ("best_audio_format", PStr "mp3");
        ("best_video_format", PStr "mp4")]))
    (λ e, list_to_map
       [("success", PBool false); ("error", PStr e); ("title", PStr "YouTube Video");
        ("thumbnail", PStr ""); ("duration", PInt 0)]).

End GetVideoInfo.

(** *** __main__ *)

Section Main.

Variable extract_info : string → result pyval.

(** The program run as a script with the arguments [argv] ([sys.argv], the
    name of the script first): the records it prints, each through
    [json.dumps], and its exit status.  An exception that nothing catches
    prints no record and ends the program with status 1. *)
Definition main (argv : list string) : list (gmap string pyval) * Z :=
  if (length argv <? 2)%nat then ([ {["error" := PStr "URL required"]} ], 1)
  else
    match argv !! 1%nat with
    | Some url => let info := get_video_info extract_info url in ([info], 0)
    | None => ([], 1)
    end.

End Main.

End YoutubeInfo.

(** ** youtube_downloader.py *)

Module YoutubeDownloader.

Import YoutubeInfo.

(** [s.replace(old, new)]: the occurrences of [old] are replaced from the
    left, none overlapping another; [skip] counts the characters of an
    occurrence still to pass over. *)
Fixpoint replace_from (old new : string) (skip : nat) (s : string) : string :=
  match s with
  | EmptyString => EmptyString
  | String c s' =>
      match skip with
      | S skip' => replace_from old new skip' s'
      | O =>
          if String.prefix old s
          then new +:+ replace_from old new (String.length old - 1) s'
          else String c (replace_from old new 0 s')
      end
  end.

(** With an empty [old], [new] goes before every character and at the end. *)
Fixpoint replace_empty (new s : string) : string :=
  match s with
  | EmptyString => new
  | String c s' => new +:+ String c (replace_empty new s')
  end.

Definition replace (old new s : string) : string :=
  if String.eqb old "" then replace_empty new s else replace_from old new 0 s.

(** [info[key]] *)
Definition getitem (info : pyval) (key : string) : result pyval :=
  match info with
  | PDict d =>
      match assoc key d with
      | Some v => Ok v
      | None => Raise ("'" +:+ key +:+ "'")
      end
  | PList _ => Raise "list indices must be integers or slices, not str"
  | PStr _ => Raise "string indices must be integers, not 'str'"
  | PInt _ => Raise "'int' object is not subscriptable"
  | PBool _ => Raise "'bool' object is not subscriptable"
  | PNone => Raise "'NoneType' object is not subscriptable"
  end.

(** The functions in [progress_hooks]. *)
Inductive hook := progress_hook.

Record postprocessor := {
  key : string;
  preferredcodec : string;
  preferredquality : string;
}.

(** The dictionary [ydl_opts]; the two keys that only [update] adds are
    optional. *)
Record ydl_opts := {
  quiet : bool;
  no_warnings : bool;
  format : string;
  outtmpl : string;
  progress_hooks : list hook;
  postprocessors : option (list postprocessor);
  keepvideo : option bool;
}.

(** [output_path or other]: [other] is evaluated only when [output_path] is
    [None] or empty. *)
Definition or_else (output_path : option string) (other : result string) : result string :=
  match output_path with
  | Some path => if Str.truthy path then Ok path else other
  | None => other
  end.

Section DownloadYoutubeVideo.

(** [yt_dlp.YoutubeDL(ydl_opts)] and [ydl.extract_info(url, download=True)] *)
Variable extract_info : ydl_opts → string → result pyval.
(** [os.path.exists] and [os.path.getsize] *)
Variable path_exists : string → bool.
Variable path_getsize : string → result Z.
(** [str(v)] for a list or a dictionary [v]. *)
Variable str_compound : pyval → string.

(** [str(v)], as an f-string formats [v]. *)
Definition str (v : pyval) : string :=
  match v with
  | PStr s => s
  | PInt n => pretty n
  | PBool true => "True"
  | PBool false => "False"
  | PNone => "None"
  | v => str_compound v
  end.

(** The options of lines 15-31. *)
Definition options (quality format : string) (output_path : option string) : ydl_opts :=
  let ydl_opts :=
    {| quiet := false;
       no_warnings := false;
       format :=
         if String.eqb format "mp3" then "bestaudio/best"
         else "best[height<=" +:+ replace "p" "" quality +:+ "]";
       outtmpl :=
         match output_path with
         | Some path => if Str.truthy path then path else "%(id)s.%(ext)s"
         | None => "%(id)s.%(ext)s"
         end;
       progress_hooks := [progress_hook];
       postprocessors := None;
       keepvideo := None |} in
  if String.eqb format "mp3" then
    {| quiet := quiet ydl_opts;
       no_warnings := no_warnings ydl_opts;
       format := YoutubeDownloader.format ydl_opts;
       outtmpl := outtmpl ydl_opts;
       progress_hooks := progress_hooks ydl_opts;
       postprocessors := Some
         [ {| key := "FFmpegExtractAudio";
              preferredcodec := "mp3";
              preferredquality :=
                if Str.contains "kbps" quality then replace "kbps" "" quality else "192" |} ];
       keepvideo := Some false |}
  else ydl_opts.

(** [download_youtube_video(video_id, quality, format, output_path)]: the
    lines it prints itself and the record it returns.  (The defaults of the
    parameters are 'best', 'mp3' and [None].) *)
Definition download_youtube_video (video_id quality format : string)
    (output_path : option string) : list string * gmap string pyval :=
  catch
    (let ydl_opts := options quality format output_path in
     let url := "https://www.youtube.com/watch?v=" +:+ video_id in
     info ← extract_info ydl_opts url;
     (* Get the downloaded file path *)
     downloaded_file ←
       (if String.eqb format "mp3"
        then or_else output_path (id ← getitem info "id"; Ok (str id +:+ ".mp3"))
        else or_else output_path (id ← getitem info "id"; Ok (str id +:+ ".mp4")));
     title ← dict_get info "title" (PStr "Unknown");
     duration ← dict_get info "duration" (PInt 0);
     file_size ←
       (if path_exists downloaded_file then path_getsize downloaded_file else Ok 0);
     Ok ([], list_to_map
       [("success", PBool true); ("video_id", PStr video_id); ("title", title);
        ("duration", duration); ("file_path", PStr downloaded_file);
        ("file_size", PInt file_size); ("format", PStr format);
        ("quality", PStr quality)]))
    (λ e, (["Error downloading video: " +:+ e],
           list_to_map
             [("success", PBool false); ("error", PStr e); ("video_id", PStr video_id)])).

(** *** __main__ *)

(** A line of the output: a text, or a record printed through [json.dumps]. *)
Inductive line :=
  | Text (s : string)
  | Json (record : gmap string pyval).

(** [sys.argv[i]] *)
Definition argument (argv : list string) (i : nat) : result string :=
  match argv !! i with
  | Some a => Ok a
  | None => Raise "list index out of range"
  end.

(** The program run as a script with the arguments [argv]: the lines it
    prints and its exit status.  An exception that nothing catches ends the
    program with status 1. *)
Definition main (argv : list string) : list line * Z :=
  if (length argv <? 4)%nat then
    ([Text "Usage: python youtube_downloader.py <video_id> <quality> <format> [output_path]"], 1)
  else
    catch
      (video_id ← argument argv 1;
       quality ← argument argv 2;
       format ← argument argv 3;
       output_path ←
         (if (4 <? length argv)%nat then path ← argument argv 4; Ok (Some path)
          else Ok None);
       let result := download_youtube_video video_id quality format output_path in
       Ok ((Text <$> result.1) ++ [Json result.2], 0))
      (λ _, ([], 1)).

End DownloadYoutubeVideo.

End YoutubeDownloader.

(** ** A concrete document model, for running the crawler on examples *)

Module Dom.

(** A parsed document: tags with a name, attributes and children, and the
    strings between them. *)
Inductive node :=
  | Tag (name : string) (attrs : list (string * string)) (children : list node)
  | NavigableString (s : string).

(** All tags below a node, in document order. *)
Fixpoint descendants (n : node) : list node :=
  match n with
  | NavigableString _ => []
  | Tag _ _ children =>
      (fix go (cs : list node) : list node :=
         match cs with
         | [] => []
         | c :: cs' =>
             match c with
             | Tag _ _ _ => c :: descendants c
             | NavigableString _ => []
             end ++ go cs'
         end) children
  end.

Fixpoint get_text (n : node) : string :=
  match n with
  | NavigableString s => s
  | Tag _ _ children =>
      (fix go (cs : list node) : string :=
         match cs with
         | [] => ""
         | c :: cs' => get_text c +:+ go cs'
         end) children
  end.

Definition name_of (n : node) : string :=
  match n with
  | Tag name _ _ => name
  | NavigableString _ => ""
  end.

Fixpoint lookup_attr (key : string) (attrs : list (string * string)) : option string :=
  match attrs with
  | [] => None
  | (k, v) :: attrs' => if String.eqb k key then Some v else lookup_attr key attrs'
  end.

Definition get (n : node) (key : string) : option string :=
  match n with
  | Tag _ attrs _ => lookup_attr key attrs
  | NavigableString _ => None
  end.

Definition matches_name (nm : name_filter) (n : node) : bool :=
  match nm with
  | AnyTag => true
  | TagName x => String.eqb (name_of n) x
  | TagNames xs => existsb (String.eqb (name_of n)) xs
  end.

(** A keyword argument filters on the attribute of that name.  The
    parameters of [find_all] proper are [name], [attrs], [recursive],
    [string] and [limit], so the key [tag] of the selectors is such a
    filter too.  [class_] stands for the attribute [class], whose value
    is matched one class at a time, then as a whole. *)
Definition matches_attr (key : string) (f : attr_filter) (n : node) : bool :=
  if String.eqb key "class_" then
    match get n "class", f with
    | Some v, HasAttr => true
    | Some v, AttrIs x => existsb (String.eqb x) (String.words v) || String.eqb x v
    | Some v, AttrTest t => existsb (λ c, t (Some c)) (String.words v) || t (Some v)
    | None, HasAttr => false
    | None, AttrIs _ => false
    | None, AttrTest t => t None
    end
  else
    match get n key, f with
    | Some v, HasAttr => true
    | Some v, AttrIs x => String.eqb x v
    | Some v, AttrTest t => t (Some v)
    | None, HasAttr => false
    | None, AttrIs _ => false
    | None, AttrTest t => t None
    end.

Definition matches (nm : name_filter) (kw : list (string * attr_filter)) (n : node) : bool :=
  matches_name nm n && forallb (λ kf, matches_attr kf.1 kf.2 n) kw.

Definition find_all (n : node) (nm : name_filter) (kw : list (string * attr_filter))
    : list node :=
  filter (λ x, matches nm kw x = true) (descendants n).

Lemma find_all_HasAttr n nm kw k x :
  x ∈ find_all n nm kw → (k, HasAttr) ∈ kw → k ≠ "class_" → is_Some (get x k).
Proof.
  unfold find_all, matches. intros Hx Hk Hne.
  apply list_elem_of_filter in Hx as [Hm _].
  apply andb_prop in Hm as [_ Hall].
  rewrite forallb_forall in Hall.
  apply list_elem_of_In, Hall in Hk. unfold matches_attr in Hk; simpl in Hk.
  destruct (String.eqb_spec k "class_") as [|_]; [done|].
  destruct (get x k); [eauto | discriminate].
Qed.

#[global] Instance bs4 : Bs4 node :=
  Build_Bs4 node find_all name_of get get_text find_all_HasAttr.

End Dom.


(** ** A concrete model of urllib.parse, for running the crawler on examples *)

(** URLs of the form [scheme://netloc/path?query#fragment] and references
    that are absolute, start with [/], or are plain relative paths.  A
    network location with one square bracket and not the other is refused,
    as [urlsplit] refuses it.  Dot segments, parameters, hosts in brackets
    and references that are only a query or a fragment are left out: the
    examples do not use them. *)
Module Url.

Definition is_scheme_char (c : ascii) : bool :=
  let n := Ascii.nat_of_ascii c in
  ((Nat.leb 97 n && Nat.leb n 122) || (Nat.leb 65 n && Nat.leb n 90) ||
   (Nat.leb 48 n && Nat.leb n 57) || Nat.eqb n 43 || Nat.eqb n 45 || Nat.eqb n 46)%bool.

(** The scheme and what follows its colon, when the URL has a scheme. *)
Fixpoint split_scheme_from (seen : string) (u : string) : option (string * string) :=
  match u with
  | EmptyString => None
  | String c u' =>
      if Ascii.eqb c ":" then
        if String.eqb seen "" then None else Some (String.rev seen, u')
      else if is_scheme_char c then split_scheme_from (String c seen) u'
      else None
  end.

Definition split_scheme (u : string) : string * string :=
  default ("", u) (split_scheme_from "" u).

Fixpoint take_until (stop : ascii → bool) (s : string) : string :=
  match s with
  | EmptyString => EmptyString
  | String c s' => if stop c then EmptyString else String c (take_until stop s')
  end.

Fixpoint drop_until (stop : ascii → bool) (s : string) : string :=
  match s with
  | EmptyString => EmptyString
  | String c s' => if stop c then s else drop_until stop s'
  end.

Definition ends_netloc (c : ascii) : bool :=
  (Ascii.eqb c "/" || Ascii.eqb c "?" || Ascii.eqb c "#")%bool.

Definition ends_path (c : ascii) : bool :=
  (Ascii.eqb c "?" || Ascii.eqb c "#")%bool.

Definition drop2 (s : string) : string :=
  match s with
  | String _ (String _ s') => s'
  | _ => EmptyString
  end.

Definition scheme (u : string) : string := (split_scheme u).1.

(** The network location as it is written in [u]. *)
Definition raw_netloc (u : string) : string :=
  let rest := (split_scheme u).2 in
  if String.prefix "//" rest then take_until ends_netloc (drop2 rest) else "".

(** [urlparse(u).netloc] *)
Definition netloc (u : string) : result string :=
  let n := raw_netloc u in
  if xorb (Str.contains "[" n) (Str.contains "]" n)
  then Raise "Invalid IPv6 URL"
  else Ok n.

(** [urlparse(u).path] *)
Definition path (u : string) : string :=
  let rest := (split_scheme u).2 in
  if String.prefix "//" rest
  then take_until ends_path (drop_until ends_netloc (drop2 rest))
  else take_until ends_path rest.

(** The path up to and including its last [/]. *)
Fixpoint dirname (p : string) : string :=
  match p with
  | EmptyString => EmptyString
  | String c p' =>
      if Str.contains "/" p' then String c (dirname p')
      else if Ascii.eqb c "/" then "/" else ""
  end.

(** [urljoin(base, url)]: but for an empty [base] or [url], both arguments
    are parsed first. *)
Definition urljoin (base url : string) : result string :=
  if String.eqb base "" then Ok url
  else if String.eqb url "" then Ok base
  else
    base_netloc ← netloc base;
    _ ← netloc url;
    Ok (if negb (String.eqb (scheme url) "") then url
        else if String.prefix "//" url then scheme base +:+ ":" +:+ url
        else if String.prefix "/" url then scheme base +:+ "://" +:+ base_netloc +:+ url
        else scheme base +:+ "://" +:+ base_netloc +:+
             (if String.eqb (dirname (path base)) "" then "/" else dirname (path base))
             +:+ url).

End Url.


(** ** An example site *)

Module Site.

Definition isoformat (n : nat) : string := "2024-01-01T00:00:" +:+ pretty n.

Definition anchor (href label : string) : Dom.node :=
  Dom.Tag "a" [("href", href)] [Dom.NavigableString label].

(** A container matched by a selector of [video_selectors]: an element of
    the given name that also carries the attribute [tag], so that it is
    matched whether [tag] is read as the element name or as an attribute. *)
Definition container (name class : string) (children : list Dom.node) : Dom.node :=
  Dom.Tag name [("tag", name); ("class", class)] children.

Definition home : Dom.node :=
  Dom.Tag "html" []
    [ container "div" "video-item" [anchor "/v/1" "Title"];
      container "article" "video" [anchor "/v/2" "Second"];
      anchor "/page2" "next";
      anchor "https://other.org/x" "elsewhere";
      anchor "/img/logo.png" "logo";
      anchor "/a.jpg.html" "gallery" ].

Definition page2 : Dom.node :=
  Dom.Tag "html" [] [ container "div" "video-item" [anchor "/v/1" "Title"] ].

Definition gallery : Dom.node :=
  Dom.Tag "html" [] [ anchor "/page2" "back" ].

(** The site as the session sees it; every other URL fails. *)
Definition session_get (url : string) : result Dom.node :=
  if String.eqb url "http://example.com/" then Ok home
  else if String.eqb url "http://example.com/page2" then Ok page2
  else if String.eqb url "http://example.com/a.jpg.html" then Ok gallery
  else Raise ("404 Client Error: Not Found for url: " +:+ url).

Definition fresh : scraper := new_scraper isoformat "http://example.com/" "out" "job-1".

Definition crawl (max_depth : Z) : M unit :=
  scrape_page Url.urljoin Url.netloc isoformat session_get "http://example.com/" 0 max_depth.

End Site.

(** ** A page with a link that cannot be parsed *)

Module BadLink.

(** A page that links to a page that does not exist, then has a link with
    an opening bracket in its network location, then links to page2. *)
Definition page : Dom.node :=
  Dom.Tag "html" []
    [ Site.anchor "/missing" "gone";
      Site.anchor "http://[bad" "broken";
      Site.anchor "/page2" "next" ].

Definition session_get (url : string) : result Dom.node :=
  if String.eqb url "http://example.com/" then Ok page
  else if String.eqb url "http://example.com/page2" then Ok Site.page2
  else Raise ("404 Client Error: Not Found for url: " +:+ url).

Definition crawl (max_depth : Z) : M unit :=
  scrape_page Url.urljoin Url.netloc Site.isoformat session_get
    "http://example.com/" 0 max_depth.

End BadLink.

(** * Properties *)

(** ** Reading the clock *)

(** The state after [n] more readings of the clock. *)
Definition advance (n : nat) (s : scraper) : scraper :=
  mk_scraper (base_url s) (output_dir s) (job_id s) (visited_urls s) (videos_found s)
    (videos_downloaded s) (progress s) (n + clock s) (stdout s) (progress_file s)
    (results_file s) (requests s).

Lemma advance_0 s : advance 0 s = s.
Proof. by destruct s. Qed.

Lemma advance_tick n s : tick (advance n s) = advance (S n) s.
Proof. done. Qed.

Lemma advance_advance n k s : advance n (advance k s) = advance (n + k) s.
Proof. unfold advance; simpl. f_equal. lia. Qed.

(** ** Deduplication by url *)

Lemma truthy_opt_is_Some o : Str.truthy_opt o = true → is_Some o.
Proof. destruct o; [eauto | discriminate]. Qed.

Lemma deduplicate_from_spec seen_urls videos_on_page :
  Forall (λ video : gmap string string, is_Some (video !! "url")) videos_on_page →
  ∃ unique_videos,
    deduplicate_from seen_urls videos_on_page = Ok unique_videos ∧
    NoDup (urls unique_videos) ∧
    (∀ u, Some u ∈ urls unique_videos → u ∉ seen_urls) ∧
    sublist unique_videos videos_on_page ∧
    (∀ u, Some u ∈ urls videos_on_page → u ∈ seen_urls ∨ Some u ∈ urls unique_videos).
Proof.
  intros Hall. revert seen_urls.
  induction Hall as [|video rest [u Hu] _ IH]; intros seen_urls.
  - exists []. split_and!; [done|constructor|inversion 1|done|inversion 1].
  - cbn. unfold getitem. rewrite Hu. cbn. case_bool_decide as Hseen.
    + destruct (IH ({[u]} ∪ seen_urls)) as (unique & -> & Hnd & Hfresh & Hsub & Hcov).
      exists (video :: unique). cbn. split_and!; [done| | | |].
      * change (NoDup (video !! "url" :: urls unique)).
        rewrite Hu. constructor; [|done]. intros Hin. apply Hfresh in Hin. set_solver.
      * change (urls (video :: unique)) with (video !! "url" :: urls unique).
        intros u' [Heq|Hin]%elem_of_cons. { rewrite Hu in Heq. by simplify_eq. }
        apply Hfresh in Hin. set_solver.
      * by constructor.
      * change (urls (video :: rest)) with (video !! "url" :: urls rest).
        change (urls (video :: unique)) with (video !! "url" :: urls unique).
        intros u' [Heq|Hin]%elem_of_cons.
        { right. rewrite Hu. simplify_eq. left. }
        destruct (Hcov u' Hin) as [Hs|Hs]; [|by right; right].
        apply elem_of_union in Hs as [->%elem_of_singleton|Hs]; [|by left].
        right. rewrite Hu. left.
    + destruct (IH seen_urls) as (unique & -> & Hnd & Hfresh & Hsub & Hcov).
      exists unique. split_and!; [done|done|done|by constructor|].
      change (urls (video :: rest)) with (video !! "url" :: urls rest).
      intros u' [Heq|Hin]%elem_of_cons; [|by apply Hcov].
      left. by assert (u' = u) as -> by congruence.
Qed.

Lemma deduplicate_spec videos_on_page :
  Forall (λ video : gmap string string, Str.truthy_opt (video !! "url") = true) videos_on_page →
  ∃ unique_videos,
    deduplicate videos_on_page = Ok unique_videos ∧
    NoDup (urls unique_videos) ∧
    sublist unique_videos videos_on_page ∧
    (∀ u, Some u ∈ urls videos_on_page → Some u ∈ urls unique_videos).
Proof.
  intros Hall.
  destruct (deduplicate_from_spec ∅ videos_on_page) as (unique & Hd & Hnd & _ & Hsub & Hcov).
  { eapply Forall_impl; [done|]. intros v. apply truthy_opt_is_Some. }
  exists unique. split_and!; [done..|].
  intros u Hu. destruct (Hcov u Hu) as [Hs|Hs]; [set_solver|done].
Qed.

(** ** Running a method *)

Lemma run_bind {A B} (m : M A) (f : A → M B) s :
  (m ≫= f) s =
    match m s with
    | Some (Ok a, s') => f a s'
    | Some (Raise e, s') => Some (Raise e, s')
    | None => None
    end.
Proof. done. Qed.

(** Runs the next statement of a method on the state at hand. *)
Ltac run :=
  try rewrite run_bind;
  cbv beta iota delta
    [get_self modify lift mret M_ret update_progress save_results
     http_get time_sleep].

Section ScraperProperties.

Context {element : Type} `{!Bs4 element}.
Variable urljoin : string → string → result string.
Variable netloc : string → result string.
Variable isoformat : nat → string.
Variable session_get : string → result element.

Local Abbreviation extract_video_data := (extract_video_data urljoin isoformat).
Local Abbreviation scan_elements := (scan_elements urljoin isoformat).
Local Abbreviation scan_selectors := (scan_selectors urljoin isoformat).
Local Abbreviation scrape_page_body := (scrape_page_body urljoin netloc isoformat session_get).
Local Abbreviation scrape_page_fuel := (scrape_page_fuel urljoin netloc isoformat session_get).
Local Abbreviation scrape_page := (scrape_page urljoin netloc isoformat session_get).
Local Abbreviation report := (report isoformat).
Local Abbreviation update_progress := (update_progress isoformat).
Local Abbreviation download_videos := (download_videos isoformat).
Local Abbreviation http_get := (http_get session_get).

Lemma extract_video_data_spec elem url s :
  ∃ n r, extract_video_data elem url s = Some (Ok r, advance n s) ∧
         (n ≤ 1)%nat ∧
         ∀ video, r = Some video → Str.truthy_opt (video !! "url") = true.
Proof.
  unfold extract_video_data, try_except, lift, datetime_now.
  unfold mbind, M_bind, mret, M_ret. cbn beta.
  destruct (match find elem (TagName "a") _ with Some _ => _ | None => _ end) as [video|e];
    cbn; [|exists 0%nat, None; rewrite advance_0; split_and!; [done|lia|done]].
  destruct (match find elem (TagName "img") _ with Some _ => _ | None => _ end) as [video'|e];
    cbn; [|exists 0%nat, None; rewrite advance_0; split_and!; [done|lia|done]].
  eexists 1%nat, _. split_and!; [reflexivity|lia|].
  intros v Hv. case_match; by simplify_eq.
Qed.



Lemma scan_elements_spec elements url s :
  ∃ n r, scan_elements elements url s = Some (Ok r, advance n s) ∧
         ∀ video, r = Some video → Str.truthy_opt (video !! "url") = true.
Proof.
  revert s. induction elements as [|elem rest IH]; intros s.
  - exists 0%nat, None. by rewrite advance_0.
  - destruct (extract_video_data_spec elem url s) as (n & r & Hr & _ & Hurl).
    cbn. unfold mbind, M_bind. rewrite Hr.
    destruct r as [video|].
    + rewrite (Hurl video eq_refl). by exists n, (Some video).
    + destruct (IH (advance n s)) as (k & r & Hk & Hr').
      exists (k + n)%nat, r. by rewrite Hk, advance_advance.
Qed.

Lemma scan_selectors_spec soup url selectors videos_on_page s :
  ∃ n found,
    scan_selectors soup url selectors videos_on_page s
      = Some (Ok (videos_on_page ++ found), advance n s) ∧
    (length found ≤ length selectors)%nat ∧
    Forall (λ video : gmap string string, Str.truthy_opt (video !! "url") = true) found.
Proof.
  revert videos_on_page s.
  induction selectors as [|selector rest IH]; intros videos_on_page s.
  - exists 0%nat, []. by rewrite advance_0, app_nil_r.
  - destruct (scan_elements_spec (find_all soup AnyTag selector) url s) as (n & r & Hr & Hurl).
    cbn. unfold mbind, M_bind. rewrite Hr.
    destruct (IH (videos_on_page ++ option_list r) (advance n s)) as (k & found & Hk & Hlen & Hall).
    exists (k + n)%nat, (option_list r ++ found).
    rewrite Hk, advance_advance, app_assoc. split_and!; [done| |].
    + rewrite length_app. destruct r; simpl; lia.
    + apply Forall_app. split; [|done]. destruct r; simpl; eauto.
Qed.


(** ** One call of scrape_page, step by step *)



(** The state in which the page is requested: lines 59-64. *)
Definition enter (url : string) (depth : Z) (s : scraper) : scraper :=
  log_request url depth
    (report [Progress.Status "scraping_page"; Progress.CurrentUrl url] (add_visited url s)).

(** The [except] clause: lines 120-124. *)
Definition page_failed (e : string) (s : scraper) : scraper :=
  report [Progress.Errors (Progress.errors (progress s) + 1); Progress.LastError e] s.

(** Lines 96-104, once the videos of the page are known. *)
Definition page_scraped (unique_videos : list (gmap string string)) (s : scraper) : scraper :=
  let s' := extend_videos_found unique_videos s in
  write_results
    (report [Progress.PagesScraped (Progress.pages_scraped (progress s') + 1);
             Progress.VideosFound (Z.of_nat (length (videos_found s')))] s').

(** The body of the loop of lines 109-118. *)
Definition follow_link (recurse : string → Z → Z → M unit) (url : string)
    (depth max_depth : Z) (link : element) : M unit :=
  href ← lift (subscript link "href");
  absolute_url ← lift (urljoin url href);
  self ← get_self;
  lift (same_domain netloc (base_url self) absolute_url) ≫= λ same : bool,
  if same then
    if negb (non_page_link absolute_url) then
      time_sleep;; recurse absolute_url (depth + 1) max_depth
    else mret tt
  else mret tt.

(** What the loop makes of a link of the page [url]: the url it recurses
    into, if any, or the exception of [urljoin] or [urlparse]. *)
Definition link_target (base_url url : string) (link : element) : result (option string) :=
  href ← subscript link "href";
  absolute_url ← urljoin url href;
  same ← same_domain netloc base_url absolute_url;
  Ok (if same && negb (non_page_link absolute_url) then Some absolute_url else None).

Lemma follow_link_run recurse url depth max_depth link s :
  follow_link recurse url depth max_depth link s =
    match link_target (base_url s) url link with
    | Raise e => Some (Raise e, s)
    | Ok None => Some (Ok tt, s)
    | Ok (Some absolute_url) => recurse absolute_url (depth + 1) max_depth s
    end.
Proof.
  cbv beta iota delta
    [follow_link link_target lift get_self time_sleep mret mbind M_bind M_ret result_bind].
  destruct (subscript link "href") as [href|e]; [|done].
  destruct (urljoin url href) as [absolute_url|e]; [|done].
  destruct (same_domain netloc (base_url s) absolute_url) as [[]|e]; [|done..].
  by destruct (non_page_link absolute_url).
Qed.

Lemma link_target_followed base_url url link absolute_url :
  link_target base_url url link = Ok (Some absolute_url) →
  (∃ href, attr link "href" = Some href ∧ urljoin url href = Ok absolute_url) ∧
  same_domain netloc base_url absolute_url = Ok true ∧
  non_page_link absolute_url = false.
Proof.
  cbv beta iota delta [link_target subscript mbind result_bind].
  destruct (attr link "href") as [href|]; [|done].
  destruct (urljoin url href) as [a|] eqn:Hjoin; [|done].
  destruct (same_domain netloc base_url a) as [[]|] eqn:Hdom; [|done..].
  destruct (non_page_link a) eqn:Hext; [done|].
  intros [= <-]. split_and!; [by exists href|done|done].
Qed.

Definition skipped (url : string) (depth max_depth : Z) (s : scraper) : bool :=
  (max_depth <? depth) || bool_decide (url ∈ visited_urls s).

Lemma scrape_page_body_skipped recurse url depth max_depth s :
  skipped url depth max_depth s = true →
  scrape_page_body recurse url depth max_depth s = Some (Ok tt, s).
Proof.
  unfold skipped, scrape_page_body. intros Hskip. run. by rewrite Hskip.
Qed.

Lemma scrape_page_body_failed recurse url depth max_depth s e :
  skipped url depth max_depth s = false →
  session_get url = Raise e →
  scrape_page_body recurse url depth max_depth s
    = Some (Ok tt, page_failed e (enter url depth s)).
Proof.
  unfold skipped, scrape_page_body. intros Hskip Hget. run. rewrite Hskip.
  run. unfold try_except. run. run. by rewrite Hget.
Qed.

Lemma scrape_page_body_scraped recurse url depth max_depth s soup :
  skipped url depth max_depth s = false →
  session_get url = Ok soup →
  ∃ n videos_on_page unique_videos,
    scan_selectors soup url video_selectors [] (enter url depth s)
      = Some (Ok videos_on_page, advance n (enter url depth s)) ∧
    (length videos_on_page ≤ 5)%nat ∧
    deduplicate videos_on_page = Ok unique_videos ∧
    NoDup (urls unique_videos) ∧
    scrape_page_body recurse url depth max_depth s =
      (if depth <? max_depth then
         try_except
           (for_each (find_all soup (TagName "a") [("href", HasAttr)])
              (follow_link recurse url depth max_depth))
           (λ e s', Some (Ok tt, page_failed e s'))
       else mret tt)
      (page_scraped unique_videos (advance n (enter url depth s))).
Proof.
  intros Hskip Hget.
  destruct (scan_selectors_spec soup url video_selectors [] (enter url depth s))
    as (n & vids & Hscan & Hlen & Hall).
  rewrite app_nil_l in Hscan.
  destruct (deduplicate_spec vids Hall) as (unique & Hd & Hnd & _).
  exists n, vids, unique. split_and!; [done|done|done|done|].
  unfold skipped in Hskip. unfold scrape_page_body.
  run. rewrite Hskip. run. unfold try_except at 1. run. run. rewrite Hget.
  run. unfold enter in Hscan. rewrite Hscan. run. rewrite Hd. run. run. run. run.
  destruct (depth <? max_depth); [|done].
  unfold try_except, follow_link.
  by destruct (for_each _ _ _) as [[[[]|?] ?]|].
Qed.

(** ** Induction rules for the crawl

    A relation [P] between the state before and after a call, indexed by
    the url and depth of the call, holds of every call of [scrape_page] as
    soon as it holds of a call that returns at once and of a page that
    fails, and an invariant [L] of the loop over the links, which holds
    once the page is scraped, is carried along each link and gives [P]
    when the loop ends, at its end or by an exception. *)

Section LoopRule.

Variable max_depth : Z.
Variable P : string → Z → scraper → scraper → Prop.
Variable L : string → Z → scraper → list element → scraper → Prop.

Hypothesis P_skipped : ∀ url depth s,
  skipped url depth max_depth s = true → P url depth s s.

Hypothesis P_failed : ∀ url depth s e,
  skipped url depth max_depth s = false →
  session_get url = Raise e →
  P url depth s (page_failed e (enter url depth s)).

Hypothesis L_scraped : ∀ url depth s soup n videos_on_page unique_videos,
  skipped url depth max_depth s = false →
  session_get url = Ok soup →
  scan_selectors soup url video_selectors [] (enter url depth s)
    = Some (Ok videos_on_page, advance n (enter url depth s)) →
  deduplicate videos_on_page = Ok unique_videos →
  NoDup (urls unique_videos) →
  L url depth s
    (if depth <? max_depth then find_all soup (TagName "a") [("href", HasAttr)] else [])
    (page_scraped unique_videos (advance n (enter url depth s))).

Hypothesis L_passed : ∀ url depth s link links s1,
  L url depth s (link :: links) s1 →
  link_target (base_url s1) url link = Ok None →
  L url depth s links s1.

Hypothesis L_followed : ∀ url depth s link links s1 absolute_url s2,
  depth < max_depth →
  L url depth s (link :: links) s1 →
  link_target (base_url s1) url link = Ok (Some absolute_url) →
  P absolute_url (depth + 1) s1 s2 →
  L url depth s links s2.

Hypothesis L_raised : ∀ url depth s link links s1 e,
  depth < max_depth →
  L url depth s (link :: links) s1 →
  link_target (base_url s1) url link = Raise e →
  P url depth s (page_failed e s1).

Hypothesis L_done : ∀ url depth s s1,
  L url depth s [] s1 → P url depth s s1.

Lemma follow_links_rule recurse url depth links s0 s :
  depth < max_depth →
  (∀ a s1, ∃ s2, recurse a (depth + 1) max_depth s1 = Some (Ok tt, s2) ∧
                 P a (depth + 1) s1 s2) →
  L url depth s0 links s →
  ∃ s', try_except (for_each links (follow_link recurse url depth max_depth))
          (λ e s', Some (Ok tt, page_failed e s')) s = Some (Ok tt, s') ∧
        P url depth s0 s'.
Proof.
  intros Hlt Hrec. revert s.
  induction links as [|link links IH]; intros s HL.
  - exists s. split; [done|]. by apply L_done.
  - unfold try_except in *. cbn [for_each]. rewrite run_bind, follow_link_run.
    destruct (link_target (base_url s) url link) as [[a|]|e] eqn:Htarget.
    + destruct (Hrec a s) as (s2 & -> & HP2). apply IH. by eapply L_followed.
    + apply IH. by eapply L_passed.
    + eexists. split; [done|]. by eapply L_raised.
Qed.

Lemma scrape_page_body_rule recurse url depth s :
  (depth < max_depth → ∀ a s1,
     ∃ s2, recurse a (depth + 1) max_depth s1 = Some (Ok tt, s2) ∧ P a (depth + 1) s1 s2) →
  ∃ s', scrape_page_body recurse url depth max_depth s = Some (Ok tt, s') ∧
        P url depth s s'.
Proof.
  intros Hrec.
  destruct (skipped url depth max_depth s) eqn:Hskip;
    [rewrite scrape_page_body_skipped by done; eauto|].
  destruct (session_get url) as [soup|e] eqn:Hget;
    [|rewrite (scrape_page_body_failed _ _ _ _ _ e) by done; eauto].
  destruct (scrape_page_body_scraped recurse url depth max_depth s soup)
    as (n & vids & unique & Hscan & _ & Hd & Hnd & ->); [done..|].
  pose proof (L_scraped url depth s soup n vids unique Hskip Hget Hscan Hd Hnd) as HL.
  destruct (Z.ltb_spec depth max_depth) as [Hlt|Hge].
  - apply follow_links_rule; auto.
  - eexists. split; [done|]. by apply L_done.
Qed.

Theorem scrape_page_loop_rule url depth s :
  ∃ s', scrape_page url depth max_depth s = Some (Ok tt, s') ∧ P url depth s s'.
Proof.
  unfold scrape_page.
  remember (Z.to_nat (max_depth - depth)) as fuel eqn:Hfuel.
  revert url depth s Hfuel.
  induction fuel as [|fuel IH]; intros url depth s Hfuel; cbn [scrape_page_fuel];
    apply scrape_page_body_rule; intros Hlt a s1.
  - lia.
  - apply IH. lia.
Qed.

End LoopRule.

(** The rule for a relation that needs no invariant of its own for the
    loop: it holds once the page is scraped, is carried along a followed
    link, and still holds when an exception of [urljoin] or [urlparse]
    ends the loop and the error is reported. *)

Section Rule.

Variable max_depth : Z.
Variable P : string → Z → scraper → scraper → Prop.

Hypothesis P_skipped : ∀ url depth s,
  skipped url depth max_depth s = true → P url depth s s.

Hypothesis P_failed : ∀ url depth s e,
  skipped url depth max_depth s = false →
  session_get url = Raise e →
  P url depth s (page_failed e (enter url depth s)).

Hypothesis P_scraped : ∀ url depth s soup n videos_on_page unique_videos,
  skipped url depth max_depth s = false →
  session_get url = Ok soup →
  scan_selectors soup url video_selectors [] (enter url depth s)
    = Some (Ok videos_on_page, advance n (enter url depth s)) →
  deduplicate videos_on_page = Ok unique_videos →
  NoDup (urls unique_videos) →
  P url depth s (page_scraped unique_videos (advance n (enter url depth s))).

Hypothesis P_followed : ∀ url absolute_url depth s s1 s2,
  depth < max_depth →
  same_domain netloc (base_url s1) absolute_url = Ok true →
  non_page_link absolute_url = false →
  P url depth s s1 →
  P absolute_url (depth + 1) s1 s2 →
  P url depth s s2.

Hypothesis P_abandoned : ∀ url depth s s1 e,
  skipped url depth max_depth s = false →
  depth < max_depth →
  P url depth s s1 →
  P url depth s (page_failed e s1).

Theorem scrape_page_rule url depth s :
  ∃ s', scrape_page url depth max_depth s = Some (Ok tt, s') ∧ P url depth s s'.
Proof.
  apply (scrape_page_loop_rule max_depth P
           (λ url depth s _ s1, skipped url depth max_depth s = false ∧ P url depth s s1));
    [done|done|by eauto| | | |by intros ???? [_ ?]].
  - done.
  - intros u d s0 link links s1 a s2 Hlt [Hskip HP] Htarget HP2. split; [done|].
    apply link_target_followed in Htarget as (_ & Hdom & Hext). by eapply P_followed.
  - intros u d s0 link links s1 e Hlt [Hskip HP] _. by apply P_abandoned.
Qed.

End Rule.

(** ** The recursion equation of scrape_page *)

Lemma follow_links_ext rec1 rec2 url depth max_depth links s :
  (∀ a s1, rec1 a (depth + 1) max_depth s1 = rec2 a (depth + 1) max_depth s1) →
  for_each links (follow_link rec1 url depth max_depth) s
    = for_each links (follow_link rec2 url depth max_depth) s.
Proof.
  intros Hrec. revert s. induction links as [|link links IH]; intros s; [done|].
  cbn [for_each]. rewrite !run_bind.
  assert (follow_link rec1 url depth max_depth link s
            = follow_link rec2 url depth max_depth link s) as ->.
  { rewrite !follow_link_run. destruct (link_target _ _ _) as [[a|]|e]; [|done..].
    apply Hrec. }
  destruct (follow_link _ _ _ _ _ _) as [[[[]|?] s1]|]; [apply IH|done..].
Qed.

Lemma scrape_page_body_ext rec1 rec2 url depth max_depth s :
  (depth < max_depth →
   ∀ a s1, rec1 a (depth + 1) max_depth s1 = rec2 a (depth + 1) max_depth s1) →
  scrape_page_body rec1 url depth max_depth s = scrape_page_body rec2 url depth max_depth s.
Proof.
  intros Hrec.
  destruct (skipped url depth max_depth s) eqn:Hskip;
    [by rewrite !scrape_page_body_skipped|].
  destruct (session_get url) as [soup|e] eqn:Hget;
    [|by rewrite !(scrape_page_body_failed _ _ _ _ _ e)].
  destruct (scrape_page_body_scraped rec1 url depth max_depth s soup)
    as (n1 & vids1 & unique1 & Hscan1 & _ & Hd1 & _ & ->); [done..|].
  destruct (scrape_page_body_scraped rec2 url depth max_depth s soup)
    as (n2 & vids2 & unique2 & Hscan2 & _ & Hd2 & _ & ->); [done..|].
  rewrite Hscan1 in Hscan2.
  assert (vids1 = vids2) as -> by congruence.
  assert (advance n1 (enter url depth s) = advance n2 (enter url depth s)) as ->
    by congruence.
  assert (unique1 = unique2) as -> by congruence.
  destruct (Z.ltb_spec depth max_depth) as [Hlt|Hge]; [|done].
  unfold try_except. by rewrite (follow_links_ext rec1 rec2) by auto.
Qed.

(** [scrape_page] satisfies the recursive definition of the method: the
    fuel of the model never runs out. *)
Lemma scrape_page_unfold url depth max_depth s :
  scrape_page url depth max_depth s
    = scrape_page_body scrape_page url depth max_depth s.
Proof.
  unfold scrape_page at 1. cbn [scrape_page_fuel].
  apply scrape_page_body_ext. intros Hlt a s1. unfold scrape_page.
  by replace (Z.to_nat (max_depth - depth))
    with (S (Z.to_nat (max_depth - (depth + 1)))) by lia.
Qed.

Lemma skipped_false url depth max_depth s :
  skipped url depth max_depth s = false → depth ≤ max_depth ∧ url ∉ visited_urls s.
Proof.
  unfold skipped. intros [Hd Hv]%orb_false_elim.
  apply Z.ltb_ge in Hd. by apply bool_decide_eq_false in Hv.
Qed.

Lemma skipped_true url depth max_depth s :
  skipped url depth max_depth s = true → max_depth < depth ∨ url ∈ visited_urls s.
Proof.
  unfold skipped. intros [Hd|Hv]%orb_prop.
  - left. by apply Z.ltb_lt.
  - right. by apply bool_decide_eq_true in Hv.
Qed.

(** ** The depth bound *)

(** C4. Whatever the state, the url and the depths, a call of [scrape_page]
    returns, and the requests it issued (the new entries of the log, each
    with the depth of the call that issued it) are all at depths between
    [depth] and [max_depth]; a call with [depth > max_depth] returns at once
    and leaves the state as it was, and a call with [depth >= max_depth]
    recurses into no link: it requests at most its own page. *)
Theorem scrape_page_depth_bound url depth max_depth s :
  ∃ s' new,
    scrape_page url depth max_depth s = Some (Ok tt, s') ∧
    requests s' = new ++ requests s ∧
    Forall (λ r : string * Z, depth ≤ r.2 ≤ max_depth) new ∧
    (max_depth < depth → s' = s) ∧
    (max_depth ≤ depth → new = [] ∨ new = [(url, depth)]).
Proof.
  destruct (scrape_page_rule max_depth (λ url depth s s',
    ∃ new, requests s' = new ++ requests s ∧
           Forall (λ r : string * Z, depth ≤ r.2 ≤ max_depth) new ∧
           (max_depth < depth → s' = s) ∧
           (max_depth ≤ depth → new = [] ∨ new = [(url, depth)]))) with url depth s
    as (s' & Hrun & new & Hnew & Hall & Hout & Hleaf).
  - intros u d s0 _. exists []. split_and!; [done|constructor|done|by left].
  - intros u d s0 e [Hd _]%skipped_false _. exists [(u, d)].
    split_and!; [done|by repeat constructor|lia|by right].
  - intros u d s0 soup n vids unique [Hd _]%skipped_false _ _ _ _. exists [(u, d)].
    split_and!; [done|by repeat constructor|lia|by right].
  - intros u a d s0 s1 s2 Hlt _ _ (new1 & Hnew1 & Hall1 & _) (new2 & Hnew2 & Hall2 & _).
    exists (new2 ++ new1). split_and!; [|  |lia|lia].
    + by rewrite Hnew2, Hnew1, app_assoc.
    + apply Forall_app. split; [|done].
      eapply Forall_impl; [done|]. simpl. lia.
  - intros u d s0 s1 e _ Hlt (new1 & Hnew1 & Hall1 & _). exists new1.
    split_and!; [done|done|lia|lia].
  - eauto 10.
Qed.

(** ** The visited set *)

(** What links the request log, the visited set and the page counter: every
    url requested is in the visited set, no url was requested twice, and
    there are at least as many requests as pages counted. *)
Definition requests_accounted (s : scraper) : Prop :=
  (∀ url depth, (url, depth) ∈ requests s → url ∈ visited_urls s) ∧
  NoDup (requests s).*1 ∧
  Progress.pages_scraped (progress s) ≤ Z.of_nat (length (requests s)).

Lemma requests_accounted_size s :
  requests_accounted s →
  Progress.pages_scraped (progress s) ≤ Z.of_nat (size (visited_urls s)).
Proof.
  intros (Hin & Hnd & Hle).
  assert (length (requests s) ≤ size (visited_urls s))%nat; [|lia].
  rewrite <-(length_fmap fst), <-(size_list_to_set (C:=gset string)) by done.
  apply subseteq_size. intros u [[u' d] [-> Hu]]%elem_of_list_to_set%list_elem_of_fmap.
  by apply (Hin u' d).
Qed.

Lemma requests_accounted_enter url depth s :
  url ∉ visited_urls s →
  requests_accounted s →
  (∀ u d, (u, d) ∈ requests (enter url depth s) → u ∈ visited_urls (enter url depth s)) ∧
  NoDup (requests (enter url depth s)).*1 ∧
  Progress.pages_scraped (progress (enter url depth s)) + 1
    ≤ Z.of_nat (length (requests (enter url depth s))).
Proof.
  intros Hfresh (Hin & Hnd & Hle). cbn. split_and!.
  - intros u d [Heq|Hu]%elem_of_cons.
    + injection Heq as -> _. apply elem_of_union_l. by apply elem_of_singleton.
    + apply elem_of_union_r. by apply (Hin u d).
  - constructor; [|done].
    intros [[u d] [-> Hu]]%list_elem_of_fmap. by apply Hin in Hu.
  - lia.
Qed.

(** C6. From a state in which the requests are accounted for (as they are
    in a new scraper), every call of [scrape_page] returns in such a state:
    the visited set contains the url of every request ever issued, it has
    only grown, and its size is at least the counter [pages_scraped]. *)
Theorem visited_covers_requests url depth max_depth s :
  requests_accounted s →
  ∃ s',
    scrape_page url depth max_depth s = Some (Ok tt, s') ∧
    (∀ u d, (u, d) ∈ requests s' → u ∈ visited_urls s') ∧
    visited_urls s ⊆ visited_urls s' ∧
    Progress.pages_scraped (progress s') ≤ Z.of_nat (size (visited_urls s')) ∧
    requests_accounted s'.
Proof.
  intros Hacc.
  destruct (scrape_page_rule max_depth (λ _ _ s s',
    requests_accounted s → requests_accounted s' ∧ visited_urls s ⊆ visited_urls s'))
    with url depth s as (s' & Hrun & HP).
  - done.
  - intros u d s0 e [_ Hfresh]%skipped_false _ Hs0.
    destruct (requests_accounted_enter u d s0 Hfresh Hs0) as (Hin & Hnd & Hle).
    split; [|cbn; set_solver]. split_and!; [done..|]. cbn in *. lia.
  - intros u d s0 soup n vids unique [_ Hfresh]%skipped_false _ _ _ _ Hs0.
    destruct (requests_accounted_enter u d s0 Hfresh Hs0) as (Hin & Hnd & Hle).
    split; [|cbn; set_solver]. split_and!; [done..|]. cbn in *. lia.
  - intros _ _ _ s0 s1 s2 _ _ _ H1 H2 Hs0.
    destruct (H1 Hs0) as [Hs1 Hsub1]. destruct (H2 Hs1) as [Hs2 Hsub2].
    split; [done|by etrans].
  - intros _ _ s0 s1 e _ _ H1 Hs0. by destruct (H1 Hs0) as [Hs1 Hsub1].
  - destruct (HP Hacc) as [Hacc' Hsub]. exists s'.
    split_and!; [done|apply Hacc'|done|by apply requests_accounted_size|done].
Qed.

(** ** The counters *)

(** The lines printed so far, newest first, never show a counter above its
    value in the line printed after it, nor above its current value. *)
Fixpoint reports_chain (current : Progress.t) (log : list Progress.t) : Prop :=
  match log with
  | [] => True
  | p :: older => Progress.counters_le p current ∧ reports_chain p older
  end.

(** The reports are monotone, and the counter [videos_found] is not ahead of
    the list it counts. *)
Definition reports_monotone (s : scraper) : Prop :=
  reports_chain (progress s) (stdout s) ∧
  Progress.videos_found (progress s) ≤ Z.of_nat (length (videos_found s)).

Lemma counters_le_refl p : Progress.counters_le p p.
Proof. unfold Progress.counters_le. lia. Qed.

Lemma counters_le_trans p q r :
  Progress.counters_le p q → Progress.counters_le q r → Progress.counters_le p r.
Proof. unfold Progress.counters_le. lia. Qed.

Lemma reports_chain_le p q log :
  Progress.counters_le p q → reports_chain p log → reports_chain q log.
Proof.
  destruct log as [|x older]; [done|]. intros Hpq [Hx Holder].
  split; [|done]. by eapply counters_le_trans.
Qed.

(** One report whose new counters are not below the old ones. *)
Lemma reports_monotone_report kwargs s :
  Progress.counters_le (progress s) (Progress.update (progress s) kwargs) →
  reports_chain (progress s) (stdout s) →
  reports_chain (progress (report kwargs s)) (stdout (report kwargs s)) ∧
  Progress.counters_le (progress s) (progress (report kwargs s)).
Proof.
  intros Hle Hchain. cbn. split_and!; [apply counters_le_refl| |done].
  by eapply reports_chain_le.
Qed.

Lemma reports_monotone_scrape_page url depth max_depth s :
  reports_monotone s →
  ∃ s',
    scrape_page url depth max_depth s = Some (Ok tt, s') ∧
    reports_monotone s' ∧
    stdout s `suffix_of` stdout s' ∧
    Progress.counters_le (progress s) (progress s').
Proof.
  intros Hmono.
  destruct (scrape_page_rule max_depth (λ _ _ s s',
    reports_monotone s →
    reports_monotone s' ∧ stdout s `suffix_of` stdout s' ∧
    Progress.counters_le (progress s) (progress s')))
    with url depth s as (s' & Hrun & HP); [..|by eauto].
  - intros _ _ s0 _ Hs0. split_and!; [done|done|apply counters_le_refl].
  - intros u d s0 e _ _ [Hchain Hlen].
    unfold reports_monotone, Progress.counters_le in *.
    cbn. unfold Progress.stamp. cbn.
    split_and!;
      first [ lia
            | by do 2 apply suffix_cons_r
            | by unfold Progress.counters_le; cbn; lia
            | by eapply reports_chain_le; [|done]; unfold Progress.counters_le; cbn; lia ].
  - intros u d s0 soup n vids unique _ _ _ _ _ [Hchain Hlen].
    unfold reports_monotone, Progress.counters_le in *.
    cbn. unfold Progress.stamp. cbn. rewrite length_app.
    split_and!;
      first [ lia
            | by do 2 apply suffix_cons_r
            | by unfold Progress.counters_le; cbn; lia
            | by eapply reports_chain_le; [|done]; unfold Progress.counters_le; cbn; lia ].
  - intros _ _ _ s0 s1 s2 _ _ _ H1 H2 Hs0.
    destruct (H1 Hs0) as (Hs1 & Hsuf1 & Hle1). destruct (H2 Hs1) as (Hs2 & Hsuf2 & Hle2).
    split_and!; [done|by etrans|by eapply counters_le_trans].
  - intros _ _ s0 s1 e _ _ H1 Hs0. destruct (H1 Hs0) as ([Hchain Hlen] & Hsuf & Hle).
    unfold reports_monotone, Progress.counters_le in *.
    cbn. unfold Progress.stamp. cbn.
    split_and!;
      first [ lia
            | by apply suffix_cons_r
            | by unfold Progress.counters_le; cbn; lia
            | by eapply reports_chain_le; [|done]; unfold Progress.counters_le; cbn; lia ].
Qed.

Lemma download_videos_run s :
  download_videos s =
    if bool_decide (videos_found s = []) then
      Some (Ok [], report [Progress.Status "no_videos_found"] s)
    else
      Some (Ok (take 20 (videos_found s)),
            report [Progress.Status "downloading_videos";
                    Progress.TotalToDownload (Z.of_nat (length (videos_found s)))] s).
Proof. unfold download_videos. run. case_bool_decide; by run. Qed.

Lemma reports_monotone_new_scraper base_url output_dir job_id :
  reports_monotone (new_scraper isoformat base_url output_dir job_id).
Proof. by split. Qed.

(** C7. From a state whose reports are monotone (as those of a new scraper
    are), every update that [scrape_page] and the download phase make
    through [update_progress] prints counters [pages_scraped],
    [videos_found], [videos_downloaded] and [errors] that are not below
    those of the line before: the output only grows, and the whole of it is
    still monotone afterwards. *)
Theorem counters_monotone s :
  reports_monotone s →
  (∀ url depth max_depth, ∃ s',
     scrape_page url depth max_depth s = Some (Ok tt, s') ∧
     reports_monotone s' ∧
     stdout s `suffix_of` stdout s' ∧
     Progress.counters_le (progress s) (progress s')) ∧
  (∃ batch s',
     download_videos s = Some (Ok batch, s') ∧
     reports_monotone s' ∧
     stdout s `suffix_of` stdout s' ∧
     Progress.counters_le (progress s) (progress s')).
Proof.
  intros Hmono. split.
  - intros url depth max_depth. by apply reports_monotone_scrape_page.
  - rewrite download_videos_run. destruct Hmono as [Hchain Hlen].
    case_bool_decide; eexists _, _; (split; [reflexivity|]);
      unfold reports_monotone; cbn; unfold Progress.stamp; cbn;
      split_and!;
      first [ done
            | by apply suffix_cons_r
            | by unfold Progress.counters_le; cbn; lia
            | by eapply reports_chain_le; [|done]; unfold Progress.counters_le; cbn; lia ].
Qed.


(** ** The download phase *)

Lemma scrape_page_keeps_downloads url depth max_depth s :
  ∃ s',
    scrape_page url depth max_depth s = Some (Ok tt, s') ∧
    Progress.videos_downloaded (progress s') = Progress.videos_downloaded (progress s) ∧
    videos_downloaded s' = videos_downloaded s.
Proof.
  apply (scrape_page_rule max_depth (λ _ _ s s',
    Progress.videos_downloaded (progress s') = Progress.videos_downloaded (progress s) ∧
    videos_downloaded s' = videos_downloaded s)); try done.
  intros _ _ _ s0 s1 s2 _ _ _ [H1 H1'] [H2 H2']. split; congruence.
Qed.

(** C8. With no candidate found, [download_videos] reports the status
    [no_videos_found], hands nothing to the pool and leaves the counter
    [videos_downloaded] as it was, which after any crawl of a new scraper
    is 0.  With candidates, it reports [downloading_videos] with their
    number, and what it hands to the pool is the list of the first 20 of
    them at most, in the order of discovery. *)
Theorem download_videos_spec s :
  (videos_found s = [] →
   ∃ s',
     download_videos s = Some (Ok [], s') ∧
     Progress.status (progress s') = "no_videos_found" ∧
     head (stdout s') = Some (progress s') ∧
     Progress.videos_downloaded (progress s') = Progress.videos_downloaded (progress s) ∧
     videos_downloaded s' = videos_downloaded s) ∧
  (videos_found s ≠ [] →
   ∃ batch s',
     download_videos s = Some (Ok batch, s') ∧
     Progress.status (progress s') = "downloading_videos" ∧
     Progress.total_to_download (progress s') = Some (Z.of_nat (length (videos_found s))) ∧
     head (stdout s') = Some (progress s') ∧
     batch = take 20 (videos_found s) ∧
     (length batch ≤ 20)%nat ∧
     batch `prefix_of` videos_found s) ∧
  (∀ base_url output_dir job_id url depth max_depth,
   ∃ s1,
     scrape_page url depth max_depth (new_scraper isoformat base_url output_dir job_id)
       = Some (Ok tt, s1) ∧
     (videos_found s1 = [] →
      ∃ s2,
        download_videos s1 = Some (Ok [], s2) ∧
        Progress.status (progress s2) = "no_videos_found" ∧
        Progress.videos_downloaded (progress s2) = 0)).
Proof.
  split_and!.
  - intros Hnone. rewrite download_videos_run, bool_decide_eq_true_2 by done.
    by eexists.
  - intros Hsome. rewrite download_videos_run, bool_decide_eq_false_2 by done.
    eexists _, _. split_and!; [done..| |].
    + rewrite length_take. lia.
    + apply prefix_take.
  - intros base output job url depth max_depth.
    destruct (scrape_page_keeps_downloads url depth max_depth
                (new_scraper isoformat base output job)) as (s1 & Hrun & Hcount & _).
    exists s1. split; [done|]. intros Hnone.
    rewrite download_videos_run, bool_decide_eq_true_2 by done.
    eexists. split_and!; [done..|]. cbn. by rewrite Hcount.
Qed.

(** ** Failures of the fetch *)

Lemma scrape_page_returns url depth max_depth s :
  ∃ s', scrape_page url depth max_depth s = Some (Ok tt, s').
Proof.
  destruct (scrape_page_rule max_depth (λ _ _ _ _, True)) with url depth s
    as (s' & Hrun & _); eauto.
Qed.

Lemma scrape_page_keeps_base_url url depth max_depth s :
  ∃ s', scrape_page url depth max_depth s = Some (Ok tt, s') ∧ base_url s' = base_url s.
Proof.
  apply (scrape_page_rule max_depth (λ _ _ s s', base_url s' = base_url s)); try done.
  intros _ _ _ s0 s1 s2 _ _ _ H1 H2. congruence.
Qed.

(** The loop over the links always comes to an end: at its end, or at the
    first link whose target cannot be worked out. *)
Lemma follow_links_outcome parent depth max_depth links s :
  ∃ outcome s',
    for_each links (follow_link scrape_page parent depth max_depth) s = Some (outcome, s') ∧
    base_url s' = base_url s ∧
    ∀ e, outcome = Raise e →
      ∃ link, link ∈ links ∧ link_target (base_url s) parent link = Raise e.
Proof.
  revert s. induction links as [|link links IH]; intros s.
  - exists (Ok tt), s. by split_and!.
  - cbn [for_each]. rewrite run_bind, follow_link_run.
    destruct (link_target (base_url s) parent link) as [[a|]|e] eqn:Htarget.
    + destruct (scrape_page_keeps_base_url a (depth + 1) max_depth s) as (s1 & -> & Hbase).
      destruct (IH s1) as (outcome & s' & -> & Hbase' & Hraise).
      exists outcome, s'. split_and!; [done|congruence|].
      intros e He. destruct (Hraise e He) as (l & Hl & Hle).
      exists l. split; [by right|]. by rewrite <-Hbase.
    + destruct (IH s) as (outcome & s' & -> & Hbase' & Hraise).
      exists outcome, s'. split_and!; [done..|].
      intros e He. destruct (Hraise e He) as (l & Hl & Hle). exists l. split; [by right|done].
    + exists (Raise e), s. split_and!; [done..|].
      intros e' [= <-]. exists link. split; [left|done].
Qed.

(** C5. No call of [scrape_page] raises: it returns, whatever fails below
    it.  When the fetch of its page fails with [e], what the call does is to
    request the page, count one more error and report it with [last_error]
    set to [e]: it follows no link and records no video or page.  A failed
    fetch ends the call on that page only: in the loop over the links of a
    page, a link whose target can be worked out returns normally, also when
    it is followed and the fetch of its target fails, and the loop goes on
    with the links after it.  The call on a page that was fetched returns in
    the state in which its loop ends; when the loop does not run to its end,
    what ended it is reported as an error, and it is an exception of
    [urljoin] or [urlparse] on a link of the page, not the failure of a
    fetch. *)
Theorem fetch_failure_contained url depth max_depth s :
  (∃ s', scrape_page url depth max_depth s = Some (Ok tt, s')) ∧
  (∀ e,
     skipped url depth max_depth s = false →
     session_get url = Raise e →
     ∃ s',
       scrape_page url depth max_depth s = Some (Ok tt, s') ∧
       Progress.errors (progress s') = Progress.errors (progress s) + 1 ∧
       Progress.last_error (progress s') = Some e ∧
       head (stdout s') = Some (progress s') ∧
       progress_file s' = Some (progress s') ∧
       requests s' = (url, depth) :: requests s ∧
       videos_found s' = videos_found s ∧
       Progress.pages_scraped (progress s') = Progress.pages_scraped (progress s)) ∧
  (∀ parent link links target,
     link_target (base_url s) parent link = Ok target →
     ∃ s1,
       follow_link scrape_page parent depth max_depth link s = Some (Ok tt, s1) ∧
       for_each (link :: links) (follow_link scrape_page parent depth max_depth) s
         = for_each links (follow_link scrape_page parent depth max_depth) s1 ∧
       (target = None → s1 = s) ∧
       (∀ absolute_url e,
          target = Some absolute_url →
          skipped absolute_url (depth + 1) max_depth s = false →
          session_get absolute_url = Raise e →
          s1 = page_failed e (enter absolute_url (depth + 1) s))) ∧
  (∀ soup,
     skipped url depth max_depth s = false →
     session_get url = Ok soup →
     depth < max_depth →
     ∃ s1 outcome s2,
       for_each (find_all soup (TagName "a") [("href", HasAttr)])
         (follow_link scrape_page url depth max_depth) s1 = Some (outcome, s2) ∧
       scrape_page url depth max_depth s
         = Some (Ok tt, match outcome with Ok _ => s2 | Raise e => page_failed e s2 end) ∧
       ∀ e, outcome = Raise e →
         ∃ link, link ∈ find_all soup (TagName "a") [("href", HasAttr)] ∧
                 link_target (base_url s) url link = Raise e).
Proof.
  split_and!.
  - apply scrape_page_returns.
  - intros e Hskip Hget. exists (page_failed e (enter url depth s)).
    split; [|done].
    by rewrite scrape_page_unfold, (scrape_page_body_failed _ _ _ _ _ e).
  - intros parent link links target Htarget.
    rewrite follow_link_run, Htarget. destruct target as [a|].
    + destruct (scrape_page_returns a (depth + 1) max_depth s) as [s1 Hs1].
      exists s1. split_and!; [done| |done|].
      * cbn [for_each]. by rewrite run_bind, follow_link_run, Htarget, Hs1.
      * intros a' e [= <-] Hskip Hget.
        rewrite scrape_page_unfold, (scrape_page_body_failed _ _ _ _ _ e) in Hs1 by done.
        congruence.
    + exists s. split_and!; [done| |done|done].
      cbn [for_each]. by rewrite run_bind, follow_link_run, Htarget.
  - intros soup Hskip Hget Hlt. rewrite scrape_page_unfold.
    destruct (scrape_page_body_scraped scrape_page url depth max_depth s soup)
      as (n & vids & unique & _ & _ & _ & _ & ->); [done..|].
    apply Z.ltb_lt in Hlt. rewrite Hlt. unfold try_except.
    destruct (follow_links_outcome url depth max_depth
                (find_all soup (TagName "a") [("href", HasAttr)])
                (page_scraped unique (advance n (enter url depth s))))
      as (outcome & s2 & Hloop & _ & Hraise).
    eexists _, outcome, s2. split_and!; [done| |done].
    rewrite Hloop. by destruct outcome as [[]|e].
Qed.

(** ** The candidates of one page *)

Lemma scan_selectors_app soup url pre post videos_on_page s :
  scan_selectors soup url (pre ++ post) videos_on_page s =
    (found ← scan_selectors soup url pre videos_on_page;
     scan_selectors soup url post found) s.
Proof.
  revert videos_on_page s. induction pre as [|selector pre IH]; intros acc s; [done|].
  cbn [app scan_selectors]. rewrite !run_bind.
  destruct (scan_elements _ _ s) as [[[r|?] s1]|]; [|done..].
  by rewrite IH, run_bind.
Qed.

(** C10. In the scan of a page, the elements matched by a selector are
    tried in order up to the first that gives a video with a url: the
    elements after it are not looked at, so that a selector adds one
    candidate at most, and the five selectors five at most. *)
Theorem one_candidate_per_selector soup url s :
  (∀ pre elem post video s1 s2,
     scan_elements pre url s = Some (Ok None, s1) →
     extract_video_data elem url s1 = Some (Ok (Some video), s2) →
     scan_elements (pre ++ elem :: post) url s = Some (Ok (Some video), s2)) ∧
  (∀ selector selectors videos_on_page,
   ∃ n found,
     scan_elements (find_all soup AnyTag selector) url s = Some (Ok found, advance n s) ∧
     scan_selectors soup url (selector :: selectors) videos_on_page s
       = scan_selectors soup url selectors (videos_on_page ++ option_list found)
           (advance n s) ∧
     (length (option_list found) ≤ 1)%nat) ∧
  (∃ n videos_on_page,
     scan_selectors soup url video_selectors [] s = Some (Ok videos_on_page, advance n s) ∧
     (length videos_on_page ≤ 5)%nat).
Proof.
  split_and!.
  - intros pre. revert s. induction pre as [|e pre IH]; intros s0 elem post video s1 s2.
    + intros [= <-] Hext. cbn [app scan_elements]. rewrite run_bind, Hext.
      destruct (extract_video_data_spec elem url s0) as (n & r & Hr & _ & Hurl).
      rewrite Hr in Hext. injection Hext as -> _. by rewrite (Hurl video eq_refl).
    + cbn [app scan_elements]. rewrite !run_bind.
      destruct (extract_video_data_spec e url s0) as (n & r & -> & _ & Hurl).
      destruct r as [v|]; [by rewrite (Hurl v eq_refl)|]. apply IH.
  - intros selector selectors acc.
    destruct (scan_elements_spec (find_all soup AnyTag selector) url s) as (n & r & Hr & _).
    exists n, r. split_and!; [done| |destruct r; simpl; lia].
    cbn [scan_selectors]. by rewrite run_bind, Hr.
  - destruct (scan_selectors_spec soup url video_selectors [] s) as (n & found & Hrun & Hlen & _).
    by exists n, found.
Qed.

(** C2, as the code has it. The selectors are applied in order and every
    one of them is applied, whatever the selectors before it gave: the scan
    of a list of selectors with [selector] in it gives what the selectors
    before [selector] gave, then what [selector] gives on the page, then
    what the selectors after it give.  A selector that gives a candidate
    ends the scan of its own elements only. *)
Theorem every_selector_is_applied soup url pre selector post videos_on_page s :
  ∃ n1 before n2 found n3 after,
    scan_selectors soup url pre videos_on_page s
      = Some (Ok (videos_on_page ++ before), advance n1 s) ∧
    scan_elements (find_all soup AnyTag selector) url (advance n1 s)
      = Some (Ok found, advance n2 s) ∧
    scan_selectors soup url (pre ++ selector :: post) videos_on_page s
      = Some (Ok (videos_on_page ++ before ++ option_list found ++ after), advance n3 s).
Proof.
  destruct (scan_selectors_spec soup url pre videos_on_page s)
    as (n1 & before & Hpre & _ & _).
  destruct (scan_elements_spec (find_all soup AnyTag selector) url (advance n1 s))
    as (n2 & found & Hsel & _).
  destruct (scan_selectors_spec soup url post
              ((videos_on_page ++ before) ++ option_list found) (advance n2 (advance n1 s)))
    as (n3 & after & Hpost & _ & _).
  exists n1, before, (n2 + n1)%nat, found, (n3 + (n2 + n1))%nat, after.
  rewrite advance_advance in Hsel. rewrite !advance_advance in Hpost.
  split_and!; [done..|].
  rewrite scan_selectors_app, run_bind, Hpre. cbn [scan_selectors].
  rewrite run_bind, Hsel, Hpost. by rewrite <-!app_assoc.
Qed.

(** ** The candidates of a run *)

(** The pages among the requests [new] (newest first) whose fetch
    succeeded, oldest first, each with its url. *)
Definition fetched_pages (new : list (string * Z)) : list (string * element) :=
  omap (λ request : string * Z,
          match session_get request.1 with
          | Ok soup => Some (request.1, soup)
          | Raise _ => None
          end) (reverse new).

(** What a page adds to [videos_found]: the candidates of its scan, in
    their order, each url once. *)
Definition page_segment (page : string * element) (segment : list (gmap string string))
    : Prop :=
  ∃ s n videos_on_page,
    scan_selectors page.2 page.1 video_selectors [] s
      = Some (Ok videos_on_page, advance n s) ∧
    deduplicate videos_on_page = Ok segment ∧
    sublist segment videos_on_page ∧
    NoDup (urls segment) ∧
    (∀ u, Some u ∈ urls videos_on_page → Some u ∈ urls segment).

Lemma fetched_pages_app new2 new1 :
  fetched_pages (new2 ++ new1) = fetched_pages new1 ++ fetched_pages new2.
Proof. unfold fetched_pages. by rewrite reverse_app, omap_app. Qed.

(** C1, as the code has it. What a call of [scrape_page] adds to
    [videos_found] is one segment for each page it fetched, in the order of
    the fetches, and the segment of a page is made of the candidates that
    the scan of that page gives, with their urls once each: the
    deduplication is that of one page, and a url found on two pages is added
    for each of them. *)
Theorem videos_found_unique_per_page url depth max_depth s :
  ∃ s' new segments,
    scrape_page url depth max_depth s = Some (Ok tt, s') ∧
    requests s' = new ++ requests s ∧
    videos_found s' = videos_found s ++ concat segments ∧
    Forall2 page_segment (fetched_pages new) segments ∧
    Forall (λ segment, NoDup (urls segment)) segments.
Proof.
  destruct (scrape_page_rule max_depth (λ _ _ s s',
    ∃ new segments,
      requests s' = new ++ requests s ∧
      videos_found s' = videos_found s ++ concat segments ∧
      Forall2 page_segment (fetched_pages new) segments ∧
      Forall (λ segment, NoDup (urls segment)) segments)) with url depth s
    as (s' & Hrun & new & segments & HP); [..|by eauto 10].
  - intros _ _ s0 _. exists [], []. rewrite app_nil_r. by split_and!.
  - intros u d s0 e _ Hget. exists [(u, d)], []. rewrite app_nil_r.
    split_and!; [done..| |done]. unfold fetched_pages. cbn. rewrite Hget. constructor.
  - intros u d s0 soup n vids unique _ Hget Hscan Hd Hnd. exists [(u, d)], [unique].
    split_and!; [done|cbn; by rewrite app_nil_r| |by constructor].
    unfold fetched_pages. cbn. rewrite Hget. constructor; [|constructor].
    destruct (scan_selectors_spec soup u video_selectors [] (enter u d s0))
      as (n' & found & Hscan' & _ & Hall).
    rewrite app_nil_l in Hscan'. assert (found = vids) as -> by congruence.
    destruct (deduplicate_spec vids Hall) as (unique' & Hd' & _ & Hsub & Hcov).
    assert (unique' = unique) as -> by congruence.
    by exists (enter u d s0), n, vids.
  - intros _ _ _ s0 s1 s2 _ _ _ (new1 & seg1 & Hr1 & H1 & Hp1 & Hnd1)
      (new2 & seg2 & Hr2 & H2 & Hp2 & Hnd2).
    exists (new2 ++ new1), (seg1 ++ seg2). rewrite fetched_pages_app. split_and!.
    + by rewrite Hr2, Hr1, app_assoc.
    + by rewrite H2, H1, concat_app, app_assoc.
    + by apply Forall2_app.
    + by apply Forall_app.
  - intros _ _ s0 s1 e _ _ HP. exact HP.
Qed.

(** ** The links followed *)

Lemma same_domain_true base_url absolute_url :
  same_domain netloc base_url absolute_url = Ok true ↔
  ∃ n, netloc absolute_url = Ok n ∧ netloc base_url = Ok n.
Proof.
  cbv beta iota delta [same_domain mbind result_bind].
  destruct (netloc absolute_url) as [target|]; [|split; [done|by intros (? & [=] & _)]].
  destruct (netloc base_url) as [base|]; [|split; [done|by intros (? & _ & [=])]].
  split.
  - intros [= Heq%String.eqb_eq]. subst. by exists base.
  - intros (n & [= ->] & [= ->]). by rewrite String.eqb_refl.
Qed.

(** The links that the loop over [links] reaches: all of them up to the
    first one on which [urljoin] or [urlparse] raises. *)
Fixpoint links_reached (base_url url : string) (links : list element) : list element :=
  match links with
  | [] => []
  | link :: links' =>
      match link_target base_url url link with
      | Raise _ => [link]
      | Ok _ => link :: links_reached base_url url links'
      end
  end.

Lemma follow_links_reached url depth max_depth links s :
  for_each links (follow_link scrape_page url depth max_depth) s
    = for_each (links_reached (base_url s) url links)
        (follow_link scrape_page url depth max_depth) s.
Proof.
  revert s. induction links as [|link links IH]; intros s; [done|].
  cbn [links_reached].
  destruct (link_target (base_url s) url link) as [[a|]|e] eqn:Htarget;
    cbn [for_each]; rewrite !run_bind, follow_link_run, Htarget.
  - destruct (scrape_page_keeps_base_url a (depth + 1) max_depth s) as (s1 & -> & Hbase).
    by rewrite IH, Hbase.
  - apply IH.
  - done.
Qed.

(** C3, as the code has it. The links of a page are taken in order, up to
    the first one on which [urljoin] or [urlparse] raises: that link ends
    the loop, and the links after it are not looked at.  A link that the
    loop reaches is followed, that is [scrape_page] is called on its target
    (the href joined to the url of the page), exactly when the href can be
    joined, the network location of the target and that of the base url can
    be read and are equal, and the target, in lower case, does not contain
    any of the extensions .jpg, .png, .mp4, .mp3 and .pdf, wherever in the
    url.  Any other link is passed over.  So every page requested below the
    first one has the network location of the base url and contains none of
    the extensions. *)
Theorem link_followed_iff url depth max_depth s :
  (∀ links,
     for_each links (follow_link scrape_page url depth max_depth) s
       = for_each (links_reached (base_url s) url links)
           (follow_link scrape_page url depth max_depth) s) ∧
  (∀ links link,
     link ∈ links_reached (base_url s) url links →
     link ∈ links ∧
     ∀ e, link_target (base_url s) url link = Raise e →
          last (links_reached (base_url s) url links) = Some link) ∧
  (∀ link links,
     match link_target (base_url s) url link with
     | Ok (Some absolute_url) =>
         follow_link scrape_page url depth max_depth link s
           = scrape_page absolute_url (depth + 1) max_depth s
     | Ok None =>
         follow_link scrape_page url depth max_depth link s = Some (Ok tt, s) ∧
         for_each (link :: links) (follow_link scrape_page url depth max_depth) s
           = for_each links (follow_link scrape_page url depth max_depth) s
     | Raise e =>
         follow_link scrape_page url depth max_depth link s = Some (Raise e, s) ∧
         for_each (link :: links) (follow_link scrape_page url depth max_depth) s
           = Some (Raise e, s)
     end) ∧
  (∀ link absolute_url,
     link_target (base_url s) url link = Ok (Some absolute_url) ↔
     ∃ href n,
       attr link "href" = Some href ∧
       urljoin url href = Ok absolute_url ∧
       netloc absolute_url = Ok n ∧
       netloc (base_url s) = Ok n ∧
       non_page_link absolute_url = false) ∧
  (∀ link e,
     link_target (base_url s) url link = Raise e ↔
     (attr link "href" = None ∧ e = "'href'") ∨
     ∃ href,
       attr link "href" = Some href ∧
       (urljoin url href = Raise e ∨
        ∃ absolute_url,
          urljoin url href = Ok absolute_url ∧
          (netloc absolute_url = Raise e ∨
           ∃ n, netloc absolute_url = Ok n ∧ netloc (base_url s) = Raise e))) ∧
  (∀ absolute_url,
     non_page_link absolute_url = true ↔
     ∃ ext, ext ∈ non_page_extensions ∧
            Str.contains ext (Str.lower absolute_url) = true) ∧
  (∃ s' new,
     scrape_page url depth max_depth s = Some (Ok tt, s') ∧
     requests s' = new ++ requests s ∧
     Forall (λ r : string * Z,
       r = (url, depth) ∨
       ((∃ n, netloc r.1 = Ok n ∧ netloc (base_url s) = Ok n) ∧
        non_page_link r.1 = false)) new).
Proof.
  split_and!.
  - intros links. apply follow_links_reached.
  - intros links link. induction links as [|l links IH]; [by intros ?%elem_of_nil|].
    cbn [links_reached].
    destruct (link_target (base_url s) url l) as [target|e] eqn:Htarget.
    + intros [->|Hin]%elem_of_cons.
      * split; [left|]. intros e He. congruence.
      * destruct (IH Hin) as [Hin' Hlast]. split; [by right|].
        intros e He. specialize (Hlast e He).
        destruct (links_reached (base_url s) url links); [done|]. exact Hlast.
    + intros ->%list_elem_of_singleton. split; [left|done].
  - intros link links. rewrite follow_link_run. cbn [for_each].
    rewrite run_bind, follow_link_run.
    by destruct (link_target (base_url s) url link) as [[a|]|e].
  - intros link a. split.
    + intros ((href & Hhref & Hjoin) & (n & Ha & Hb)%same_domain_true & Hext)%link_target_followed.
      by exists href, n.
    + intros (href & n & Hhref & Hjoin & Ha & Hb & Hext).
      cbv beta iota delta [link_target subscript same_domain mbind result_bind].
      by rewrite Hhref, Hjoin, Ha, Hb, String.eqb_refl, Hext.
  - intros link e.
    cbv beta iota delta [link_target subscript same_domain mbind result_bind].
    destruct (attr link "href") as [href|] eqn:Hhref.
    2:{ split; [intros [= <-]; by left|]. by intros [[_ ->]|(? & [=] & _)]. }
    destruct (urljoin url href) as [a|e1] eqn:Hjoin.
    2:{ split.
        - intros [= <-]. right. exists href. split; [done|by left].
        - intros [[[=] _]|(? & [= <-] & [?|(? & ? & _)])]; congruence. }
    destruct (netloc a) as [n|e2] eqn:Ha.
    2:{ split.
        - intros [= <-]. right. exists href. split; [done|]. right. exists a.
          split; [done|by left].
        - intros [[[=] _]|(? & [= <-] & [?|(a' & ? & [?|(? & ? & ?)])])];
            simplify_eq; congruence. }
    destruct (netloc (base_url s)) as [b|e3] eqn:Hb.
    2:{ split.
        - intros [= <-]. right. exists href. split; [done|]. right. exists a.
          split; [done|]. right. by exists n.
        - intros [[[=] _]|(? & [= <-] & [?|(a' & ? & [?|(? & ? & ?)])])];
            simplify_eq; congruence. }
    split; [done|].
    intros [[[=] _]|(? & [= <-] & [?|(a' & ? & [?|(? & ? & ?)])])];
      simplify_eq; congruence.
  - intros a. unfold non_page_link. rewrite existsb_exists.
    split; intros (ext & Hin & Hc); exists ext; split; try done;
      by apply list_elem_of_In.
  - destruct (scrape_page_rule max_depth (λ url depth s s',
      base_url s' = base_url s ∧
      ∃ new, requests s' = new ++ requests s ∧
        Forall (λ r : string * Z,
          r = (url, depth) ∨
          ((∃ n, netloc r.1 = Ok n ∧ netloc (base_url s) = Ok n) ∧
           non_page_link r.1 = false)) new))
      with url depth s as (s' & Hrun & _ & new & Hnew & Hall); [..|by eauto].
    + intros u d s0 _. split; [done|]. by exists [].
    + intros u d s0 e _ _. split; [done|]. exists [(u, d)]. split; [done|].
      constructor; [by left|constructor].
    + intros u d s0 soup n vids unique _ _ _ _ _. split; [done|]. exists [(u, d)].
      split; [done|]. constructor; [by left|constructor].
    + intros u a d s0 s1 s2 _ Hdom Hext (Hb1 & new1 & Hnew1 & Hall1) (Hb2 & new2 & Hnew2 & Hall2).
      split; [congruence|]. exists (new2 ++ new1). split.
      { by rewrite Hnew2, Hnew1, app_assoc. }
      apply Forall_app. split; [|done].
      apply same_domain_true in Hdom. rewrite Hb1 in Hdom, Hall2.
      eapply Forall_impl; [done|]. intros r [->|?]; right; [done|done].
    + intros u d s0 s1 e _ _ (Hb1 & new1 & Hnew1 & Hall1). split; [done|]. by exists new1.
Qed.

End ScraperProperties.
(** * The info-only resolution utility *)

Lemma length_slice_to n s : (String.length (Str.slice_to n s) ≤ n)%nat.
Proof.
  unfold Str.slice_to. revert s. induction n as [|n IH]; intros [|c s]; simpl; try lia.
  specialize (IH s). lia.
Qed.

Lemma size_of_slice_to n v v' :
  YoutubeInfo.slice_to n v = Ok v' → (YoutubeInfo.size_of v' ≤ n)%nat.
Proof.
  destruct v; try done; simpl; intros [= <-]; simpl.
  - apply length_slice_to.
  - rewrite length_take. lia.
Qed.

(** C9. Whatever the extractor does for a url, [get_video_info] returns a
    record and never raises, and which record is settled by what happens.
    When the extractor raises [e], when what it gives is no dictionary (so
    that [get] raises), when the description cannot be cut or the formats
    cannot be counted, the record is the one of a failure: [success] false,
    as [error] the message of the exception that was raised, the title
    "YouTube Video", an empty thumbnail and the duration 0.  In every other
    case it is the record of a success: [success] true, the title,
    thumbnail, duration, uploader, view and like counts of the dictionary
    (or their defaults), its description cut to 500 characters at most, the
    number of its formats, and the formats mp3 and mp4. *)
Theorem get_video_info_total (extract_info : string → result YoutubeInfo.pyval) url :
  let info := YoutubeInfo.get_video_info extract_info url in
  let failure (e : string) : gmap string YoutubeInfo.pyval :=
    list_to_map
      [("success", YoutubeInfo.PBool false); ("error", YoutubeInfo.PStr e);
       ("title", YoutubeInfo.PStr "YouTube Video"); ("thumbnail", YoutubeInfo.PStr "");
       ("duration", YoutubeInfo.PInt 0)] in
  (∀ e, extract_info url = Raise e → info = failure e) ∧
  (∀ v, extract_info url = Ok v → (∀ d, v ≠ YoutubeInfo.PDict d) →
     info = failure ("'" +:+ YoutubeInfo.type_name v +:+ "' object has no attribute 'get'")) ∧
  (∀ d, extract_info url = Ok (YoutubeInfo.PDict d) →
     let full_description :=
       default (YoutubeInfo.PStr "") (YoutubeInfo.assoc "description" d) in
     let all_formats := default (YoutubeInfo.PList []) (YoutubeInfo.assoc "formats" d) in
     (∀ e, YoutubeInfo.slice_to 500 full_description = Raise e → info = failure e) ∧
     (∀ description e,
        YoutubeInfo.slice_to 500 full_description = Ok description →
        YoutubeInfo.len all_formats = Raise e →
        info = failure e) ∧
     (∀ description formats,
        YoutubeInfo.slice_to 500 full_description = Ok description →
        YoutubeInfo.len all_formats = Ok formats →
        info = list_to_map
          [("success", YoutubeInfo.PBool true);
           ("title", default (YoutubeInfo.PStr "Unknown") (YoutubeInfo.assoc "title" d));
           ("thumbnail", default (YoutubeInfo.PStr "") (YoutubeInfo.assoc "thumbnail" d));
           ("duration", default (YoutubeInfo.PInt 0) (YoutubeInfo.assoc "duration" d));
           ("uploader", default (YoutubeInfo.PStr "") (YoutubeInfo.assoc "uploader" d));
           ("view_count", default (YoutubeInfo.PInt 0) (YoutubeInfo.assoc "view_count" d));
           ("like_count", default (YoutubeInfo.PInt 0) (YoutubeInfo.assoc "like_count" d));
           ("description", description); ("formats", formats);
           ("best_audio_format", YoutubeInfo.PStr "mp3");
           ("best_video_format", YoutubeInfo.PStr "mp4")] ∧
        (YoutubeInfo.size_of description ≤ 500)%nat ∧
        info !! "success" = Some (YoutubeInfo.PBool true) ∧
        info !! "description" = Some description ∧
        info !! "formats" = Some formats)) ∧
  (∀ e,
     failure e !! "success" = Some (YoutubeInfo.PBool false) ∧
     failure e !! "error" = Some (YoutubeInfo.PStr e) ∧
     failure e !! "title" = Some (YoutubeInfo.PStr "YouTube Video") ∧
     failure e !! "thumbnail" = Some (YoutubeInfo.PStr "") ∧
     failure e !! "duration" = Some (YoutubeInfo.PInt 0)).
Proof.
  intros info failure. subst info failure. unfold YoutubeInfo.get_video_info.
  split_and!.
  - by intros e ->.
  - intros v -> Hv. destruct v as [| | | | |d]; try done. by destruct (Hv d).
  - intros d ->.
    cbn -[list_to_map YoutubeInfo.slice_to YoutubeInfo.len default YoutubeInfo.assoc].
    split_and!.
    + by intros e ->.
    + intros description e -> Hlen.
      cbn -[list_to_map YoutubeInfo.len default YoutubeInfo.assoc]. by rewrite Hlen.
    + intros description formats Hslice Hlen. rewrite Hslice.
      cbn -[list_to_map YoutubeInfo.len default YoutubeInfo.assoc]. rewrite Hlen.
      cbn -[list_to_map default YoutubeInfo.assoc].
      split_and!; [done| |done..]. by eapply size_of_slice_to.
  - intros e. by split_and!.
Qed.

(** * The crawl of the example site *)

(** The state in which the crawl of the example site to depth 1 ends. *)
Definition crawled : scraper :=
  match Site.crawl 1 Site.fresh with
  | Some (_, s) => s
  | None => Site.fresh
  end.

Lemma crawl_example : Site.crawl 1 Site.fresh = Some (Ok tt, crawled).
Proof. by vm_compute. Qed.

Lemma crawl_example_videos :
  urls (videos_found crawled)
    = [Some "http://example.com/v/1"; Some "http://example.com/v/2";
       Some "http://example.com/v/1"].
Proof. by vm_compute. Qed.

Lemma crawl_example_requests :
  requests crawled
    = [("http://example.com/page2", 1); ("http://example.com/v/2", 1);
       ("http://example.com/v/1", 1); ("http://example.com/", 0)].
Proof. by vm_compute. Qed.

(** C1 as stated fails: in the crawl of the example site the home page and
    page2 both show the video /v/1, and [videos_found] ends with two entries
    of that url. *)
Lemma videos_found_repeats_across_pages :
  Site.crawl 1 Site.fresh = Some (Ok tt, crawled) ∧
  urls (videos_found crawled)
    = [Some "http://example.com/v/1"; Some "http://example.com/v/2";
       Some "http://example.com/v/1"] ∧
  ¬ NoDup (urls (videos_found crawled)).
Proof.
  split_and!; [apply crawl_example|apply crawl_example_videos|].
  rewrite crawl_example_videos. intros Hnd.
  apply NoDup_cons in Hnd as [Hnotin _]. apply Hnotin. right. left.
Qed.

(** What a run of a scan shows of its result: the url of the candidate
    found, the urls of the candidates found, and the state it ends in. *)
Definition found_url (r : option (result (option (gmap string string)) * scraper))
    : option string :=
  match r with
  | Some (Ok (Some video), _) => video !! "url"
  | _ => None
  end.

Definition found_urls (r : option (result (list (gmap string string)) * scraper))
    : option (list (option string)) :=
  match r with
  | Some (Ok videos, _) => Some (urls videos)
  | _ => None
  end.

Definition state_after {A} (r : option (result A * scraper)) (s : scraper) : scraper :=
  match r with
  | Some (_, s') => s'
  | None => s
  end.

(** C2 as stated fails: on the home page of the example site the first
    selector gives the candidate /v/1, and the second selector, applied
    after it to the same page, still adds the candidate /v/2. *)
Lemma later_selector_still_contributes :
  found_url
    (scan_elements Url.urljoin Site.isoformat
       (find_all Site.home AnyTag [("tag", AttrIs "div"); ("class_", AttrIs "video-item")])
       "http://example.com/" Site.fresh)
    = Some "http://example.com/v/1" ∧
  found_url
    (scan_elements Url.urljoin Site.isoformat
       (find_all Site.home AnyTag [("tag", AttrIs "article"); ("class_", AttrIs "video")])
       "http://example.com/"
       (state_after
          (scan_elements Url.urljoin Site.isoformat
             (find_all Site.home AnyTag
                [("tag", AttrIs "div"); ("class_", AttrIs "video-item")])
             "http://example.com/" Site.fresh)
          Site.fresh))
    = Some "http://example.com/v/2" ∧
  found_urls
    (scan_selectors Url.urljoin Site.isoformat Site.home "http://example.com/"
       video_selectors [] Site.fresh)
    = Some [Some "http://example.com/v/1"; Some "http://example.com/v/2"].
Proof. split_and!; by vm_compute. Qed.

(** The test of the claim C3: the path of the url, in lower case, ends in
    one of the extensions. *)
Definition path_ends_in_extension (absolute_url : string) : bool :=
  existsb (Str.endswith (Str.lower (Url.path absolute_url))) non_page_extensions.

(** C3 as stated fails: the home page of the example site links to
    /a.jpg.html, a page of the same site whose path does not end in any of
    the extensions; the link is passed over all the same, and the page is
    never requested. *)
Lemma link_dropped_without_extension_suffix :
  Url.urljoin "http://example.com/" "/a.jpg.html" = Ok "http://example.com/a.jpg.html" ∧
  Dom.get (Site.anchor "/a.jpg.html" "gallery") "href" = Some "/a.jpg.html" ∧
  Site.anchor "/a.jpg.html" "gallery"
    ∈ find_all Site.home (TagName "a") [("href", HasAttr)] ∧
  same_domain Url.netloc "http://example.com/" "http://example.com/a.jpg.html" = Ok true ∧
  path_ends_in_extension "http://example.com/a.jpg.html" = false ∧
  non_page_link "http://example.com/a.jpg.html" = true ∧
  Site.session_get "http://example.com/a.jpg.html" = Ok Site.gallery ∧
  Site.crawl 1 Site.fresh = Some (Ok tt, crawled) ∧
  "http://example.com/a.jpg.html" ∉ (requests crawled).*1.
Proof.
  split_and!; try by vm_compute.
  - vm_compute. do 5 right. left.
  - rewrite crawl_example_requests. cbn. intros Hin.
    repeat (apply elem_of_cons in Hin as [Heq|Hin]; [discriminate Heq|]).
    by apply elem_of_nil in Hin.
Qed.

(** * The theorems at work on the example site *)

Lemma requests_accounted_fresh : requests_accounted Site.fresh.
Proof.
  split_and!.
  - intros url depth Hin. by apply elem_of_nil in Hin.
  - constructor.
  - done.
Defined.

(** C6 on the example site: a new scraper has its requests accounted for,
    and so has the state in which the crawl to depth 1 ends. *)
Lemma visited_covers_requests_witness :
  requests_accounted Site.fresh ∧
  ∃ s',
    Site.crawl 1 Site.fresh = Some (Ok tt, s') ∧
    (∀ u d, (u, d) ∈ requests s' → u ∈ visited_urls s') ∧
    visited_urls Site.fresh ⊆ visited_urls s' ∧
    Progress.pages_scraped (progress s') ≤ Z.of_nat (size (visited_urls s')) ∧
    requests_accounted s'.
Proof.
  split; [exact requests_accounted_fresh|].
  exact (visited_covers_requests Url.urljoin Url.netloc Site.isoformat Site.session_get
           "http://example.com/" 0 1 Site.fresh requests_accounted_fresh).
Defined.

(** C7 on the example site. *)
Lemma counters_monotone_witness :
  reports_monotone Site.fresh ∧
  ∃ s',
    Site.crawl 1 Site.fresh = Some (Ok tt, s') ∧
    reports_monotone s' ∧
    stdout Site.fresh `suffix_of` stdout s' ∧
    Progress.counters_le (progress Site.fresh) (progress s').
Proof.
  assert (reports_monotone Site.fresh) as Hfresh
    by exact (reports_monotone_new_scraper Site.isoformat "http://example.com/" "out" "job-1").
  split; [exact Hfresh|].
  exact (proj1 (counters_monotone Url.urljoin Url.netloc Site.isoformat Site.session_get
                  Site.fresh Hfresh) "http://example.com/" 0 1).
Defined.

(** The state in which the crawl of the page with the bad link ends. *)
Definition abandoned : scraper :=
  match BadLink.crawl 1 Site.fresh with
  | Some (_, s) => s
  | None => Site.fresh
  end.

(** The crawl of the page with the bad link: the page that does not exist
    is requested and its failure counted, the call goes on to the next
    link, on which [urljoin] raises; this is counted as a second error, and
    page2, the link after it, is never requested. *)
Lemma bad_link_example :
  BadLink.crawl 1 Site.fresh = Some (Ok tt, abandoned) ∧
  requests abandoned = [("http://example.com/missing", 1); ("http://example.com/", 0)] ∧
  Progress.pages_scraped (progress abandoned) = 1 ∧
  Progress.errors (progress abandoned) = 2 ∧
  Progress.last_error (progress abandoned) = Some "Invalid IPv6 URL" ∧
  length (stdout abandoned) = 5%nat.
Proof. split_and!; by vm_compute. Qed.

(** C5 on the examples: the page /v/1 does not exist; the call on it
    returns with one error counted and the message of the failure as
    [last_error], and the crawl of the home page, which links to it, runs
    its loop to the end and returns.  On the page with the bad link the
    loop is ended by the exception of [urljoin] on that link. *)
Lemma fetch_failure_contained_witness :
  (∃ s',
     scrape_page Url.urljoin Url.netloc Site.isoformat Site.session_get
       "http://example.com/v/1" 1 1 Site.fresh = Some (Ok tt, s') ∧
     Progress.errors (progress s') = 1 ∧
     Progress.last_error (progress s')
       = Some "404 Client Error: Not Found for url: http://example.com/v/1" ∧
     requests s' = [("http://example.com/v/1", 1)]) ∧
  (∃ s', Site.crawl 1 Site.fresh = Some (Ok tt, s')) ∧
  (∃ s1 outcome s2,
     for_each (find_all BadLink.page (TagName "a") [("href", HasAttr)])
       (follow_link Url.urljoin Url.netloc
          (scrape_page Url.urljoin Url.netloc Site.isoformat BadLink.session_get)
          "http://example.com/" 0 1) s1 = Some (outcome, s2) ∧
     BadLink.crawl 1 Site.fresh
       = Some (Ok tt, match outcome with Ok _ => s2 | Raise e => page_failed Site.isoformat e s2 end)).
Proof.
  split_and!.
  - destruct (fetch_failure_contained Url.urljoin Url.netloc Site.isoformat Site.session_get
                "http://example.com/v/1" 1 1 Site.fresh) as (_ & Hfail & _).
    destruct (Hfail "404 Client Error: Not Found for url: http://example.com/v/1")
      as (s' & Hrun & Herr & Hlast & _ & _ & Hreq & _); [reflexivity..|].
    exists s'. repeat split; assumption.
  - destruct (fetch_failure_contained Url.urljoin Url.netloc Site.isoformat Site.session_get
                "http://example.com/" 0 1 Site.fresh) as (_ & _ & _ & Hloop).
    destruct (Hloop Site.home) as (s1 & outcome & s2 & _ & Hrun & _); [reflexivity..|].
    eexists. exact Hrun.
  - destruct (fetch_failure_contained Url.urljoin Url.netloc Site.isoformat
                BadLink.session_get "http://example.com/" 0 1 Site.fresh)
      as (_ & _ & _ & Hloop).
    destruct (Hloop BadLink.page) as (s1 & outcome & s2 & Hfor & Hrun & _); [reflexivity..|].
    exists s1, outcome, s2. split; assumption.
Defined.

Lemma crawl_example_found : length (videos_found crawled) = 3%nat.
Proof. by vm_compute. Qed.

(** C8 on the example site: before the crawl nothing is found, after it
    three candidates are. *)
Lemma download_videos_spec_witness :
  (∃ s',
     download_videos Site.isoformat Site.fresh = Some (Ok [], s') ∧
     Progress.status (progress s') = "no_videos_found" ∧
     Progress.videos_downloaded (progress s') = 0) ∧
  (∃ batch s',
     download_videos Site.isoformat crawled = Some (Ok batch, s') ∧
     Progress.status (progress s') = "downloading_videos" ∧
     Progress.total_to_download (progress s') = Some 3 ∧
     batch = videos_found crawled).
Proof.
  split.
  - destruct (download_videos_spec Url.urljoin Url.netloc Site.isoformat Site.session_get
                Site.fresh) as (Hnone & _ & _).
    destruct (Hnone eq_refl) as (s' & Hrun & Hstatus & _ & Hcount & _).
    exists s'. repeat split; assumption.
  - destruct (download_videos_spec Url.urljoin Url.netloc Site.isoformat Site.session_get
                crawled) as (_ & Hsome & _).
    destruct Hsome as (batch & s' & Hrun & Hstatus & Htotal & _ & Hbatch & _).
    { intros Hnil. pose proof crawl_example_found as Hlen.
      rewrite Hnil in Hlen. discriminate Hlen. }
    exists batch, s'. rewrite crawl_example_found in Htotal.
    rewrite take_ge in Hbatch by (rewrite crawl_example_found; lia).
    repeat split; assumption.
Defined.

(** * More on the crawl controller *)

Set Warnings "-clear-no-such-hyp".

Section CrawlAccounting.

Context {element : Type} `{!Bs4 element}.
Variable urljoin : string → string → result string.
Variable netloc : string → result string.
Variable isoformat : nat → string.
Variable session_get : string → result element.

Local Abbreviation crawl := (scrape_page urljoin netloc isoformat session_get).
Local Abbreviation crawl_rule := (scrape_page_rule urljoin netloc isoformat session_get).

(** What one page can add: the candidates left by the deduplication are at
    most five and each has a url that is not empty. *)
Lemma page_candidates soup url s n videos_on_page unique_videos :
  scan_selectors urljoin isoformat soup url video_selectors [] s
    = Some (Ok videos_on_page, advance n s) →
  deduplicate videos_on_page = Ok unique_videos →
  (length unique_videos ≤ 5)%nat ∧
  Forall (λ video : gmap string string, Str.truthy_opt (video !! "url") = true)
    unique_videos.
Proof.
  intros Hscan Hd.
  destruct (scan_selectors_spec urljoin isoformat soup url video_selectors [] s)
    as (n' & found & Hrun & Hlen & Hall).
  rewrite Hrun, app_nil_l in Hscan.
  assert (found = videos_on_page) as -> by congruence.
  destruct (deduplicate_spec videos_on_page Hall) as (unique & Hd' & _ & Hsub & _).
  assert (unique = unique_videos) as -> by congruence.
  split.
  - apply sublist_length in Hsub. simpl in Hlen. lia.
  - rewrite Forall_forall in Hall. apply Forall_forall. intros v Hv.
    apply Hall. by eapply sublist_subseteq.
Qed.

(** Every request is counted, and every count is printed.  A call of
    [scrape_page] raises neither counter by more than the number of pages
    it requested for [pages_scraped], lowers none, and raises the sum of
    [pages_scraped] and [errors] by at least the number of requests it
    issued: a request whose fetch fails is an error, one that is fetched is
    a page.  It prints one line for each request, to announce it, one for
    each page counted and one for each error counted. *)
Theorem requests_are_counted url depth max_depth s :
  ∃ s' new,
    crawl url depth max_depth s = Some (Ok tt, s') ∧
    requests s' = new ++ requests s ∧
    Progress.pages_scraped (progress s) ≤ Progress.pages_scraped (progress s') ∧
    Progress.pages_scraped (progress s')
      ≤ Progress.pages_scraped (progress s) + Z.of_nat (length new) ∧
    Progress.errors (progress s) ≤ Progress.errors (progress s') ∧
    Progress.pages_scraped (progress s) + Progress.errors (progress s)
      + Z.of_nat (length new)
      ≤ Progress.pages_scraped (progress s') + Progress.errors (progress s') ∧
    Z.of_nat (length (stdout s'))
      = Z.of_nat (length (stdout s)) + Z.of_nat (length new)
        + (Progress.pages_scraped (progress s') - Progress.pages_scraped (progress s))
        + (Progress.errors (progress s') - Progress.errors (progress s)).
Proof.
  destruct (crawl_rule max_depth (λ _ _ s s',
    ∃ new, requests s' = new ++ requests s ∧
      Progress.pages_scraped (progress s) ≤ Progress.pages_scraped (progress s') ∧
      Progress.pages_scraped (progress s')
        ≤ Progress.pages_scraped (progress s) + Z.of_nat (length new) ∧
      Progress.errors (progress s) ≤ Progress.errors (progress s') ∧
      Progress.pages_scraped (progress s) + Progress.errors (progress s)
        + Z.of_nat (length new)
        ≤ Progress.pages_scraped (progress s') + Progress.errors (progress s') ∧
      Z.of_nat (length (stdout s'))
        = Z.of_nat (length (stdout s)) + Z.of_nat (length new)
          + (Progress.pages_scraped (progress s') - Progress.pages_scraped (progress s))
          + (Progress.errors (progress s') - Progress.errors (progress s))))
    with url depth s as (s' & Hrun & new & HP); [..|by eauto].
  - intros _ _ s0 _. exists []. simpl. split_and!; [done|lia..].
  - intros u d s0 e _ _. exists [(u, d)]. cbn. unfold Progress.stamp. cbn.
    split_and!; [done|lia..].
  - intros u d s0 soup n vids unique _ _ _ _ _. exists [(u, d)].
    cbn. unfold Progress.stamp. cbn. split_and!; [done|lia..].
  - intros _ _ _ s0 s1 s2 _ _ _ (new1 & Hnew1 & ? & ? & ? & ? & ?)
      (new2 & Hnew2 & ? & ? & ? & ? & ?).
    exists (new2 ++ new1). rewrite length_app.
    split_and!; [by rewrite Hnew2, Hnew1, app_assoc|lia..].
  - intros _ _ s0 s1 e _ _ (new1 & Hnew1 & ? & ? & ? & ? & ?). exists new1.
    cbn. unfold Progress.stamp. cbn. split_and!; [done|lia..].
Qed.

(** The visited set grows by exactly the urls requested: each of them was
    not visited before the call, none is requested twice by it, and nothing
    else is marked. *)
Theorem visited_grows_by_requests url depth max_depth s :
  ∃ s' new,
    crawl url depth max_depth s = Some (Ok tt, s') ∧
    requests s' = new ++ requests s ∧
    visited_urls s' = list_to_set new.*1 ∪ visited_urls s ∧
    NoDup new.*1 ∧
    (∀ u, u ∈ new.*1 → u ∉ visited_urls s).
Proof.
  destruct (crawl_rule max_depth (λ _ _ s s',
    ∃ new, requests s' = new ++ requests s ∧
      visited_urls s' = list_to_set new.*1 ∪ visited_urls s ∧
      NoDup new.*1 ∧
      (∀ u, u ∈ new.*1 → u ∉ visited_urls s)))
    with url depth s as (s' & Hrun & new & HP); [..|by eauto].
  - intros _ _ s0 _. exists []. split_and!; [done|set_solver|constructor|set_solver].
  - intros u d s0 e [_ Hfresh]%skipped_false _. exists [(u, d)].
    split_and!; [done|cbn; set_solver|by apply NoDup_singleton|].
    intros u' ->%list_elem_of_singleton. done.
  - intros u d s0 soup n vids unique [_ Hfresh]%skipped_false _ _ _ _. exists [(u, d)].
    split_and!; [done|cbn; set_solver|by apply NoDup_singleton|].
    intros u' ->%list_elem_of_singleton. done.
  - intros _ _ _ s0 s1 s2 _ _ _ (new1 & H1 & Hv1 & Hnd1 & Hf1) (new2 & H2 & Hv2 & Hnd2 & Hf2).
    exists (new2 ++ new1). rewrite fmap_app. split_and!.
    + by rewrite H2, H1, app_assoc.
    + rewrite Hv2, Hv1, list_to_set_app_L. set_solver.
    + apply NoDup_app. split_and!; [done| |done].
      intros u Hu2 Hu1. apply (Hf2 u Hu2). rewrite Hv1.
      apply elem_of_union_l. by apply elem_of_list_to_set.
    + intros u [Hu|Hu]%elem_of_app; [|by apply Hf1].
      intros Hs0. apply (Hf2 u Hu). rewrite Hv1. by apply elem_of_union_r.
  - intros _ _ s0 s1 e _ _ (new1 & H1 & Hv1 & Hnd1 & Hf1). by exists new1.
Qed.

(** A call repeated changes nothing: the url of a call that went through
    is visited from then on, and a second call with the same arguments, in
    the state the first one left, returns at once in that state. *)
Theorem scrape_page_again_is_noop url depth max_depth s :
  ∃ s',
    crawl url depth max_depth s = Some (Ok tt, s') ∧
    crawl url depth max_depth s' = Some (Ok tt, s') ∧
    (depth ≤ max_depth → url ∈ visited_urls s').
Proof.
  destruct (crawl_rule max_depth (λ url depth s s',
    visited_urls s ⊆ visited_urls s' ∧
    (skipped url depth max_depth s = false → url ∈ visited_urls s')))
    with url depth s as (s' & Hrun & Hsub & Hin).
  - intros u d s0 Hskip. split; [done|]. intros Hno. congruence.
  - intros u d s0 e _ _. cbn. set_solver.
  - intros u d s0 soup n vids unique _ _ _ _ _. cbn. set_solver.
  - intros u a d s0 s1 s2 _ _ _ [Hsub1 Hin1] [Hsub2 _]. set_solver.
  - intros u d s0 s1 e _ _ HP. exact HP.
  - assert (depth ≤ max_depth → url ∈ visited_urls s') as Hvisited.
    { intros Hd. destruct (skipped url depth max_depth s) eqn:Hskip; [|by auto].
      apply skipped_true in Hskip as [?|Hv]; [lia|]. by apply Hsub. }
    exists s'. split_and!; [done| |done].
    rewrite scrape_page_unfold. apply scrape_page_body_skipped.
    unfold skipped. destruct (Z.ltb_spec max_depth depth) as [|Hd]; [done|].
    simpl. apply bool_decide_eq_true. by apply Hvisited.
Qed.

(** What a call adds to [videos_found] goes after what was there, every
    entry added has a url that is not empty, at most five entries are added
    for each page counted, and a counter [videos_found] that agreed with the
    length of the list still agrees with it. *)
Theorem videos_found_grows url depth max_depth s :
  ∃ s' added,
    crawl url depth max_depth s = Some (Ok tt, s') ∧
    videos_found s' = videos_found s ++ added ∧
    Forall (λ video : gmap string string, Str.truthy_opt (video !! "url") = true) added ∧
    Z.of_nat (length added)
      ≤ 5 * (Progress.pages_scraped (progress s') - Progress.pages_scraped (progress s)) ∧
    (Progress.videos_found (progress s) = Z.of_nat (length (videos_found s)) →
     Progress.videos_found (progress s') = Z.of_nat (length (videos_found s'))).
Proof.
  destruct (crawl_rule max_depth (λ _ _ s s',
    ∃ added, videos_found s' = videos_found s ++ added ∧
      Forall (λ video : gmap string string, Str.truthy_opt (video !! "url") = true) added ∧
      Z.of_nat (length added)
        ≤ 5 * (Progress.pages_scraped (progress s') - Progress.pages_scraped (progress s)) ∧
      (Progress.videos_found (progress s) = Z.of_nat (length (videos_found s)) →
       Progress.videos_found (progress s') = Z.of_nat (length (videos_found s')))))
    with url depth s as (s' & Hrun & added & HP); [..|by eauto].
  - intros _ _ s0 _. exists []. rewrite app_nil_r. simpl. split_and!; [done|done|lia|done].
  - intros u d s0 e _ _. exists []. cbn. unfold Progress.stamp. cbn.
    rewrite app_nil_r. split_and!; [done|done|lia|done].
  - intros u d s0 soup n vids unique _ _ Hscan Hd _.
    destruct (page_candidates soup u _ n vids unique Hscan Hd) as [Hlen Hall].
    exists unique. cbn. unfold Progress.stamp. cbn.
    split_and!; [done|done|lia|done].
  - intros _ _ _ s0 s1 s2 _ _ _ (a1 & H1 & Hall1 & Hlen1 & Hc1) (a2 & H2 & Hall2 & Hlen2 & Hc2).
    exists (a1 ++ a2). rewrite length_app.
    split_and!; [by rewrite H2, H1, app_assoc|by apply Forall_app|lia|auto].
  - intros _ _ s0 s1 e _ _ (a1 & H1 & Hall1 & Hlen1 & Hc1). by exists a1.
Qed.

(** The snapshot is the last line: a call either leaves the state as it
    was, or ends with the record [progress], the file progress.json and the
    last line printed all equal, stamped with a time. *)
Theorem progress_file_is_last_line url depth max_depth s :
  ∃ s',
    crawl url depth max_depth s = Some (Ok tt, s') ∧
    (s' = s ∨
     (progress_file s' = Some (progress s') ∧
      head (stdout s') = Some (progress s') ∧
      is_Some (Progress.current_time (progress s')))).
Proof.
  destruct (crawl_rule max_depth (λ _ _ s s',
    s' = s ∨
    (progress_file s' = Some (progress s') ∧
     head (stdout s') = Some (progress s') ∧
     is_Some (Progress.current_time (progress s')))))
    with url depth s as (s' & Hrun & HP); [..|by eauto].
  - by left.
  - intros u d s0 e _ _. right. cbn. eauto.
  - intros u d s0 soup n vids unique _ _ _ _ _. right. cbn. eauto.
  - intros _ _ _ s0 s1 s2 _ _ _ [->|H1] [->|H2]; auto.
  - intros _ _ s0 s1 e _ _ _. right. cbn. eauto.
Qed.

End CrawlAccounting.

(** * More on the extraction of one element *)

Lemma find_has_attr `{Bs4 element} (e x : element) nm key :
  key ≠ "class_" →
  find e nm [(key, HasAttr)] = Some x → is_Some (attr x key).
Proof.
  unfold find. intros Hkey Hhead. apply head_Some_elem_of in Hhead.
  eapply find_all_HasAttr; [done|left|done].
Qed.

Lemma slice_to_truthy n s :
  Str.truthy s = true → Str.slice_to (S n) s ≠ "".
Proof. by destruct s. Qed.

Section Extraction.

Context {element : Type} `{!Bs4 element}.
Variable urljoin : string → string → result string.
Variable isoformat : nat → string.

Local Abbreviation extract := (extract_video_data urljoin isoformat).

(** The keys a candidate can have. *)
Definition video_keys : gset string :=
  {["title"; "url"; "thumbnail"; "duration"; "views"; "scraped_at"]}.

(** [extract_video_data] never raises.  It reads the clock once at most,
    and when it gives a video, the video has a url that is not empty and
    the time of that reading as [scraped_at], its title, if it has one, is
    not empty and has 200 characters at most, and it has no key besides
    title, url, thumbnail, duration, views and scraped_at. *)
Theorem extract_video_data_shape elem base_url s :
  ∃ r s',
    extract elem base_url s = Some (Ok r, s') ∧
    (s' = s ∨ s' = tick s) ∧
    ∀ video, r = Some video →
      s' = tick s ∧
      Str.truthy_opt (video !! "url") = true ∧
      video !! "scraped_at" = Some (isoformat (clock s)) ∧
      (∀ title, video !! "title" = Some title →
         title ≠ "" ∧ (String.length title ≤ 200)%nat) ∧
      dom video ⊆ video_keys.
Proof.
  unfold extract_video_data, try_except, lift, datetime_now.
  unfold mbind, M_bind, mret, M_ret. cbn beta.
  set (titled := match find elem (TagNames _) [] with Some _ => _ | None => _ end).
  assert (Htitled : (∀ title, titled !! "title" = Some title →
                       title ≠ "" ∧ (String.length title ≤ 200)%nat) ∧
                    dom titled ⊆ {["title"]}).
  { subst titled. destruct (find elem (TagNames _) []) as [t|]; [|by split].
    destruct (Str.truthy _) eqn:Htruthy; [|by split]. split.
    - intros title. rewrite lookup_insert_eq. intros [= <-].
      split; [by apply slice_to_truthy|apply length_slice_to].
    - rewrite dom_insert_L. set_solver. }
  clearbody titled. destruct Htitled as [Htitle Hdom].
  set (linked := match find elem (TagName "a") _ with Some _ => _ | None => _ end).
  assert (Hlinked : ∀ video, linked = Ok video →
            (∀ title, video !! "title" = Some title →
               title ≠ "" ∧ (String.length title ≤ 200)%nat) ∧
            dom video ⊆ {["title"; "url"]}).
  { subst linked. intros video.
    destruct (find elem (TagName "a") _) as [l|].
    - destruct (subscript l "href") as [href|]; simpl; [|done].
      destruct (urljoin base_url href) as [url|]; simpl; intros [= <-].
      split; [intros title; rewrite lookup_insert_ne by done; apply Htitle|].
      rewrite dom_insert_L. set_solver.
    - destruct (_ && _).
      + destruct (subscript elem "href") as [href|]; simpl; [|done].
        destruct (urljoin base_url href) as [url|]; simpl; intros [= <-].
        split; [intros title; rewrite lookup_insert_ne by done; apply Htitle|].
        rewrite dom_insert_L. set_solver.
      + intros [= <-]. split; [apply Htitle|set_solver]. }
  clearbody linked. destruct linked as [video|e]; cbn;
    [|exists None, s; split_and!; [done|by left|done]].
  destruct (Hlinked video eq_refl) as [Htitle1 Hdom1]. clear Hlinked.
  set (pictured := match find elem (TagName "img") _ with Some _ => _ | None => _ end).
  assert (Hpictured : ∀ video', pictured = Ok video' →
            video' !! "title" = video !! "title" ∧
            video' !! "url" = video !! "url" ∧
            dom video' ⊆ {["title"; "url"; "thumbnail"]}).
  { subst pictured. intros video'.
    destruct (find elem (TagName "img") _) as [i|].
    - destruct (subscript i "src") as [src|]; simpl; [|done].
      destruct (urljoin base_url src) as [thumbnail|]; simpl; intros [= <-].
      rewrite !lookup_insert_ne by done. rewrite dom_insert_L. set_solver.
    - intros [= <-]. split_and!; [done..|set_solver]. }
  clearbody pictured. destruct pictured as [video'|e]; cbn;
    [|exists None, s; split_and!; [done|by left|done]].
  destruct (Hpictured video' eq_refl) as (Ht & Hu & Hdom2). clear Hpictured.
  eexists _, _. split_and!; [done|by right|].
  intros final. case_match eqn:Hurl; [|done]. intros [= <-].
  split_and!; [done|done|by rewrite lookup_insert_eq| |].
  - intros title. rewrite lookup_insert_ne by done.
    repeat case_match; rewrite ?lookup_insert_ne by done; rewrite Ht; apply Htitle1.
  - unfold video_keys. rewrite dom_insert_L.
    repeat case_match; rewrite ?dom_insert_L; set_solver.
Qed.

End Extraction.

(** * More on the deduplication *)

Lemma deduplicate_from_fixed seen_urls videos :
  Forall (λ video : gmap string string, is_Some (video !! "url")) videos →
  NoDup (urls videos) →
  (∀ u, Some u ∈ urls videos → u ∉ seen_urls) →
  deduplicate_from seen_urls videos = Ok videos.
Proof.
  intros Hall. revert seen_urls.
  induction Hall as [|video rest [u Hu] _ IH]; intros seen_urls Hnd Hfresh; [done|].
  change (urls (video :: rest)) with (video !! "url" :: urls rest) in Hnd, Hfresh.
  rewrite Hu in Hnd, Hfresh. apply NoDup_cons in Hnd as [Hnotin Hnd].
  cbn. unfold getitem. rewrite Hu. cbn.
  rewrite bool_decide_eq_true_2 by (apply Hfresh; left).
  rewrite IH; [done|done|].
  intros u' Hu' [->%elem_of_singleton|Hs]%elem_of_union; [done|].
  by apply (Hfresh u'); [right|].
Qed.

Lemma deduplicate_from_raises seen_urls videos e :
  deduplicate_from seen_urls videos = Raise e →
  e = "'url'" ∧ ∃ video, video ∈ videos ∧ video !! "url" = None.
Proof.
  revert seen_urls. induction videos as [|video rest IH]; intros seen_urls; [done|].
  cbn. unfold getitem. destruct (video !! "url") as [u|] eqn:Hu; cbn.
  - case_bool_decide.
    + destruct (deduplicate_from _ rest) as [unique|e'] eqn:Hrest; cbn; [done|].
      intros [= <-]. destruct (IH _ Hrest) as (-> & v & Hv & Hnone).
      split; [done|]. exists v. split; [by right|done].
    + intros Hrest. destruct (IH _ Hrest) as (-> & v & Hv & Hnone).
      split; [done|]. exists v. split; [by right|done].
  - intros [= <-]. split; [done|]. exists video. split; [left|done].
Qed.

Lemma deduplicate_from_head seen_urls video rest unique :
  deduplicate_from seen_urls (video :: rest) = Ok unique →
  (∀ u, video !! "url" = Some u → u ∉ seen_urls) →
  head unique = Some video.
Proof.
  cbn. unfold getitem. destruct (video !! "url") as [u|] eqn:Hu; cbn; [|done].
  intros Hrun Hfresh. rewrite bool_decide_eq_true_2 in Hrun by by apply Hfresh.
  destruct (deduplicate_from _ rest); cbn in Hrun; by simplify_eq.
Qed.

Lemma deduplicate_from_ok seen_urls videos unique :
  deduplicate_from seen_urls videos = Ok unique →
  Forall (λ video : gmap string string, is_Some (video !! "url")) videos.
Proof.
  revert seen_urls unique. induction videos as [|video rest IH]; intros seen_urls unique;
    [by constructor|].
  cbn. unfold getitem. destruct (video !! "url") as [u|] eqn:Hu; cbn; [|done].
  intros Hrun. constructor; [by eauto|].
  case_bool_decide; [|by eapply IH].
  destruct (deduplicate_from _ rest) as [unique'|] eqn:Hrest; [|done]. by eapply IH.
Qed.

(** The deduplication of lines 88-94 has two outcomes.  It raises the
    [KeyError] of [video['url']] exactly when some video of the list has no
    url.  Otherwise every video has one, the result starts with the first
    video of the list, has as many entries as there are different urls at
    most, and is left as it is by a second deduplication. *)
Theorem deduplicate_outcome videos_on_page :
  (∃ unique_videos,
     deduplicate videos_on_page = Ok unique_videos ∧
     Forall (λ video : gmap string string, is_Some (video !! "url")) videos_on_page ∧
     head unique_videos = head videos_on_page ∧
     (length unique_videos ≤ length videos_on_page)%nat ∧
     deduplicate unique_videos = Ok unique_videos) ∨
  (∃ e video,
     deduplicate videos_on_page = Raise e ∧
     video ∈ videos_on_page ∧ video !! "url" = None).
Proof.
  destruct (deduplicate videos_on_page) as [unique|e] eqn:Hrun.
  - left. exists unique.
    assert (Forall (λ video : gmap string string, is_Some (video !! "url")) videos_on_page)
      as Hall.
    { by eapply deduplicate_from_ok. }
    destruct (deduplicate_from_spec ∅ videos_on_page Hall)
      as (unique' & Hrun' & Hnd & Hfresh & Hsub & _).
    unfold deduplicate in Hrun. assert (unique' = unique) as -> by congruence.
    split_and!; [done|done| |by apply sublist_length|].
    + destruct videos_on_page as [|video rest].
      * by injection Hrun as <-.
      * by apply (deduplicate_from_head ∅ video rest).
    + apply deduplicate_from_fixed; [|done|set_solver].
      rewrite Forall_forall in Hall. apply Forall_forall. intros v Hv.
      apply Hall. by eapply sublist_subseteq.
  - right. destruct (deduplicate_from_raises ∅ videos_on_page e Hrun) as (_ & v & Hv & Hnone).
    by exists e, v.
Qed.

(** * More on what a crawl reports *)

Section CrawlReports.

Context {element : Type} `{!Bs4 element}.
Variable urljoin : string → string → result string.
Variable netloc : string → result string.
Variable isoformat : nat → string.
Variable session_get : string → result element.

Local Abbreviation crawl := (scrape_page urljoin netloc isoformat session_get).
Local Abbreviation crawl_rule := (scrape_page_rule urljoin netloc isoformat session_get).

Local Abbreviation crawl_loop_rule :=
  (scrape_page_loop_rule urljoin netloc isoformat session_get).
Local Abbreviation link_target := (link_target urljoin netloc).

(** The message of the exception of a request, when its fetch fails. *)
Definition fetch_error (request : string * Z) : option string :=
  match session_get request.1 with
  | Ok _ => None
  | Raise e => Some e
  end.

(** The exception that ends the loop over the links of the page [url], if
    any: that of the first link on which [urljoin] or [urlparse] raises. *)
Fixpoint links_error (base_url url : string) (links : list element) : option string :=
  match links with
  | [] => None
  | link :: links' =>
      match link_target base_url url link with
      | Raise e => Some e
      | Ok _ => links_error base_url url links'
      end
  end.

(** The error that the call for a request counts, if any: the failure of
    its fetch, or the exception that ends the loop over the links of its
    page, which runs for a page above [max_depth] only. *)
Definition page_error (max_depth : Z) (base_url : string) (request : string * Z)
    : option string :=
  match session_get request.1 with
  | Raise e => Some e
  | Ok soup =>
      if request.2 <? max_depth
      then links_error base_url request.1 (find_all soup (TagName "a") [("href", HasAttr)])
      else None
  end.

(** What is counted as an error, and what as a page.  Each call counts one
    error at most: the failure of its fetch, or the exception of [urljoin]
    or [urlparse] that ends the loop over the links of its page.  So
    [errors] rises by the number of requests that have such an error, and
    [pages_scraped] by the number of requests that were fetched, whether
    their loop came to its end or not.  [last_error] is the message of one
    of the errors counted, and is left as it was when there is none. *)
Theorem errors_counted_exactly url depth max_depth s :
  ∃ s' new,
    crawl url depth max_depth s = Some (Ok tt, s') ∧
    requests s' = new ++ requests s ∧
    Progress.errors (progress s')
      = Progress.errors (progress s)
        + Z.of_nat (length (omap (page_error max_depth (base_url s)) new)) ∧
    Progress.pages_scraped (progress s')
      = Progress.pages_scraped (progress s)
        + Z.of_nat (length new) - Z.of_nat (length (omap fetch_error new)) ∧
    match omap (page_error max_depth (base_url s)) new with
    | [] => Progress.last_error (progress s') = Progress.last_error (progress s)
    | errors =>
        ∃ e, e ∈ errors ∧ Progress.last_error (progress s') = Some e
    end.
Proof.
  set (counted := λ (s s' : scraper) (new : list (string * Z)),
    base_url s' = base_url s ∧
    Progress.errors (progress s')
      = Progress.errors (progress s)
        + Z.of_nat (length (omap (page_error max_depth (base_url s)) new)) ∧
    match omap (page_error max_depth (base_url s)) new with
    | [] => Progress.last_error (progress s') = Progress.last_error (progress s)
    | errors => ∃ e, e ∈ errors ∧ Progress.last_error (progress s') = Some e
    end).
  assert (Hcounted_app : ∀ s0 s1 s2 new1 new2,
    counted s0 s1 new1 → counted s1 s2 new2 → counted s0 s2 (new2 ++ new1)).
  { intros s0 s1 s2 new1 new2 (Hb1 & He1 & Hl1) (Hb2 & He2 & Hl2).
    rewrite Hb1 in He2, Hl2. unfold counted. rewrite omap_app, length_app.
    split_and!; [congruence|lia|].
    destruct (omap _ new2) as [|e2 errors2]; cbn [app].
    - rewrite Hl2. exact Hl1.
    - destruct Hl2 as (e & He & Hlast). exists e. split; [|done].
      change (e ∈ (e2 :: errors2) ++ omap (page_error max_depth (base_url s0)) new1).
      apply elem_of_app. by left. }
  destruct (crawl_loop_rule max_depth
    (λ url depth s s',
      ∃ new, requests s' = new ++ requests s ∧
        Progress.pages_scraped (progress s')
          = Progress.pages_scraped (progress s)
            + Z.of_nat (length new) - Z.of_nat (length (omap fetch_error new)) ∧
        counted s s' new)
    (λ url depth s links s1,
      ∃ new, requests s1 = new ++ (url, depth) :: requests s ∧
        fetch_error (url, depth) = None ∧
        page_error max_depth (base_url s) (url, depth) = links_error (base_url s) url links ∧
        Progress.pages_scraped (progress s1)
          = Progress.pages_scraped (progress s) + 1
            + Z.of_nat (length new) - Z.of_nat (length (omap fetch_error new)) ∧
        counted s s1 new))
    with url depth s as (s' & Hrun & new & Hnew & Hpages & _ & Herrors & Hlast);
    [..|by eauto 10].
  - intros u d s0 _. exists []. unfold counted. cbn. split_and!; [done|lia|done|lia|done].
  - intros u d s0 e _ Hget. exists [(u, d)].
    unfold counted, page_error, fetch_error. cbn. rewrite Hget. cbn.
    unfold Progress.stamp. cbn. split_and!; [done|lia|done|lia|].
    exists e. split; [left|done].
  - intros u d s0 soup n vids unique _ Hget _ _ _. exists [].
    unfold counted, page_error, fetch_error. cbn. rewrite Hget. cbn.
    unfold Progress.stamp. cbn. split_and!; [done|done| |lia|done|lia|done].
    by destruct (d <? max_depth).
  - intros u d s0 link links s1 (new & Hnew & Hfetch & Hpage & Hpages & Hb & Hc) Htarget.
    exists new. split_and!; [done|done| |done|by split].
    rewrite Hpage. cbn [links_error]. rewrite <-Hb. by rewrite Htarget.
  - intros u d s0 link links s1 a s2 _ (new & Hnew & Hfetch & Hpage & Hpages & Hc) Htarget
      (new2 & Hnew2 & Hpages2 & Hc2).
    exists (new2 ++ new). rewrite omap_app, !length_app. split_and!.
    + by rewrite Hnew2, Hnew, app_assoc.
    + done.
    + rewrite Hpage. cbn [links_error]. destruct Hc as [Hb _]. rewrite <-Hb. by rewrite Htarget.
    + lia.
    + by eapply Hcounted_app.
  - intros u d s0 link links s1 e _ (new & Hnew & Hfetch & Hpage & Hpages & Hb & He & Hl)
      Htarget.
    assert (page_error max_depth (base_url s0) (u, d) = Some e) as Hpage'.
    { rewrite Hpage. cbn [links_error]. rewrite <-Hb. by rewrite Htarget. }
    assert (omap fetch_error (new ++ [(u, d)]) = omap fetch_error new) as Hf1.
    { rewrite omap_app. cbn. rewrite Hfetch. by rewrite app_nil_r. }
    assert (omap (page_error max_depth (base_url s0)) (new ++ [(u, d)])
            = omap (page_error max_depth (base_url s0)) new ++ [e]) as Hp1.
    { rewrite omap_app. cbn. by rewrite Hpage'. }
    exists (new ++ [(u, d)]). rewrite Hf1. unfold counted. rewrite Hp1, !length_app.
    cbn. unfold Progress.stamp. cbn.
    split_and!; [by rewrite Hnew, <-app_assoc|lia|done|lia|].
    destruct (omap _ new ++ [e]) as [|e' errors'] eqn:Happ.
    { by apply app_eq_nil in Happ as [_ ?]. }
    exists e. split; [|done]. rewrite <-Happ. apply elem_of_app. right. left.
  - intros u d s0 s1 (new & Hnew & Hfetch & Hpage & Hpages & Hb & He & Hl).
    cbn [links_error] in Hpage.
    assert (omap fetch_error (new ++ [(u, d)]) = omap fetch_error new) as Hf1.
    { rewrite omap_app. cbn. rewrite Hfetch. by rewrite app_nil_r. }
    assert (omap (page_error max_depth (base_url s0)) (new ++ [(u, d)])
            = omap (page_error max_depth (base_url s0)) new) as Hp1.
    { rewrite omap_app. cbn. rewrite Hpage. by rewrite app_nil_r. }
    exists (new ++ [(u, d)]). rewrite Hf1. unfold counted. rewrite Hp1, !length_app.
    cbn. split_and!; [by rewrite Hnew, <-app_assoc|lia|done|lia|done].
Qed.

(** A call does nothing or starts with its own page.  When the url is
    visited already or the depth is over [max_depth], the call leaves the
    state as it is.  Otherwise its first request is the one for its own
    page, before any request for a page linked from it, and when it returns
    the status is [scraping_page] and [current_url] is the url of the last
    request issued. *)
Theorem own_page_is_requested_first url depth max_depth s :
  ∃ s',
    crawl url depth max_depth s = Some (Ok tt, s') ∧
    (skipped url depth max_depth s = true → s' = s) ∧
    (skipped url depth max_depth s = false →
     ∃ later last,
       requests s' = later ++ (url, depth) :: requests s ∧
       head (requests s') = Some last ∧
       Progress.current_url (progress s') = Some last.1 ∧
       Progress.status (progress s') = "scraping_page").
Proof.
  destruct (crawl_rule max_depth (λ url depth s s',
    (skipped url depth max_depth s = false →
     ∃ later, requests s' = later ++ (url, depth) :: requests s) ∧
    (∃ new, requests s' = new ++ requests s) ∧
    (s' = s ∨
     ∃ last, head (requests s') = Some last ∧
       Progress.current_url (progress s') = Some last.1 ∧
       Progress.status (progress s') = "scraping_page")))
    with url depth s as (s' & Hrun & Hown & _ & Hlast).
  - intros u d s0 Hs. split_and!; [congruence|by exists []|by left].
  - intros u d s0 e Hs _. split_and!; [by exists []|by exists [(u, d)]|].
    right. by exists (u, d).
  - intros u d s0 soup n vids unique Hs _ _ _ _.
    split_and!; [by exists []|by exists [(u, d)]|].
    right. by exists (u, d).
  - intros u a d s0 s1 s2 _ _ _ (Hown1 & [new1 Hnew1] & Hlast1)
      (_ & [new2 Hnew2] & Hlast2).
    split_and!.
    + intros Hs. destruct (Hown1 Hs) as [later1 Hlater1].
      exists (new2 ++ later1). by rewrite Hnew2, Hlater1, app_assoc.
    + exists (new2 ++ new1). by rewrite Hnew2, Hnew1, app_assoc.
    + destruct Hlast2 as [->|Hlast2]; [done|by right].
  - intros u d s0 s1 e Hskip _ (Hown1 & [new1 Hnew1] & Hlast1).
    split_and!; [done|by exists new1|]. right.
    destruct Hlast1 as [->|Hlast1]; [|done].
    destruct (Hown1 Hskip) as [later Hlater].
    apply (f_equal length) in Hlater. rewrite length_app in Hlater. simpl in Hlater. lia.
  - exists s'. split_and!; [done| |].
    + intros Hs. rewrite scrape_page_unfold, scrape_page_body_skipped in Hrun by done.
      congruence.
    + intros Hs. destruct (Hown Hs) as [later Hlater]. destruct Hlast as [->|Hlast].
      * apply (f_equal length) in Hlater. rewrite length_app in Hlater. simpl in Hlater. lia.
      * destruct Hlast as (last & ? & ? & ?). by exists later, last.
Qed.

(** What a crawl never touches: the base url, the output directory and the
    job of the scraper, the time at which it started, the videos downloaded
    and their counter, and the number of videos to download. *)
Theorem scrape_page_keeps_configuration url depth max_depth s :
  ∃ s',
    crawl url depth max_depth s = Some (Ok tt, s') ∧
    base_url s' = base_url s ∧
    output_dir s' = output_dir s ∧
    job_id s' = job_id s ∧
    Progress.start_time (progress s') = Progress.start_time (progress s) ∧
    videos_downloaded s' = videos_downloaded s ∧
    Progress.videos_downloaded (progress s') = Progress.videos_downloaded (progress s) ∧
    Progress.total_to_download (progress s') = Progress.total_to_download (progress s).
Proof.
  apply (crawl_rule max_depth (λ _ _ s s',
    base_url s' = base_url s ∧
    output_dir s' = output_dir s ∧
    job_id s' = job_id s ∧
    Progress.start_time (progress s') = Progress.start_time (progress s) ∧
    videos_downloaded s' = videos_downloaded s ∧
    Progress.videos_downloaded (progress s') = Progress.videos_downloaded (progress s) ∧
    Progress.total_to_download (progress s') = Progress.total_to_download (progress s)));
    try done.
  intros _ _ _ s0 s1 s2 _ _ _ (?&?&?&?&?&?&?) (?&?&?&?&?&?&?). split_and!; congruence.
Qed.

(** The first crawl of a scraper.  From a new scraper, a call of
    [scrape_page] ends with as many urls visited as requests were issued;
    the counter [pages_scraped] is at most that number, the sum of
    [pages_scraped] and [errors] at least that number, and the counter
    [videos_found] is the length of the list of the videos found. *)
Theorem first_crawl_summary base output job url depth max_depth :
  ∃ s',
    crawl url depth max_depth (new_scraper isoformat base output job) = Some (Ok tt, s') ∧
    size (visited_urls s') = length (requests s') ∧
    0 ≤ Progress.pages_scraped (progress s') ≤ Z.of_nat (length (requests s')) ∧
    0 ≤ Progress.errors (progress s') ∧
    Z.of_nat (length (requests s'))
      ≤ Progress.pages_scraped (progress s') + Progress.errors (progress s') ∧
    Progress.videos_found (progress s') = Z.of_nat (length (videos_found s')).
Proof.
  set (summary := λ s : scraper,
    visited_urls s = list_to_set (requests s).*1 ∧ NoDup (requests s).*1 ∧
    0 ≤ Progress.pages_scraped (progress s) ≤ Z.of_nat (length (requests s)) ∧
    0 ≤ Progress.errors (progress s) ∧
    Z.of_nat (length (requests s))
      ≤ Progress.pages_scraped (progress s) + Progress.errors (progress s) ∧
    Progress.videos_found (progress s) = Z.of_nat (length (videos_found s))).
  destruct (crawl_rule max_depth (λ _ _ s s', summary s → summary s'))
    with url depth (new_scraper isoformat base output job) as (s' & Hrun & HP).
  - done.
  - intros u d s0 e [_ Hfresh]%skipped_false _ (Hv & Hnd & Hp & He & Hsum & Hf).
    unfold summary. cbn. unfold Progress.stamp. cbn. rewrite Hv in Hfresh.
    split_and!; [by rewrite Hv| |lia..|done].
    constructor; [|done]. by rewrite elem_of_list_to_set in Hfresh.
  - intros u d s0 soup n vids unique [_ Hfresh]%skipped_false _ _ _ _
      (Hv & Hnd & Hp & He & Hsum & Hf).
    unfold summary. cbn. unfold Progress.stamp. cbn. rewrite Hv in Hfresh.
    split_and!; [by rewrite Hv| |lia..|done].
    constructor; [|done]. by rewrite elem_of_list_to_set in Hfresh.
  - intros _ _ _ s0 s1 s2 _ _ _ H1 H2 H0. auto.
  - intros _ _ s0 s1 e _ _ H1 H0. destruct (H1 H0) as (Hv & Hnd & Hp & He & Hsum & Hf).
    unfold summary. cbn. unfold Progress.stamp. cbn. split_and!; [done|done|lia..|done].
  - destruct HP as (Hv & Hnd & Hp & He & Hsum & Hf).
    { unfold summary. cbn. split_and!; [set_solver|constructor|done..]. }
    exists s'. split_and!; [done| |lia..|done].
    rewrite Hv, size_list_to_set, length_fmap; done.
Qed.

End CrawlReports.

(** * More on the url and the thumbnail of a candidate *)

Section ExtractionLinks.

Context {element : Type} `{!Bs4 element}.
Variable urljoin : string → string → result string.
Variable isoformat : nat → string.

Local Abbreviation extract := (extract_video_data urljoin isoformat).

(** What [extract_video_data] makes of an element whose link is [href]:
    the candidate has the href joined to the base url as its url, and as
    thumbnail the src of the first image with a src below the element,
    joined to the base url, or none when there is no such image; and there
    is no candidate when [urljoin] raises on the href or on the src, or
    when the joined url is empty. *)
Definition candidate_from (elem : element) (base_url href : string)
    (r : option (gmap string string)) : Prop :=
  match urljoin base_url href with
  | Raise _ => r = None
  | Ok url =>
      match find elem (TagName "img") [("src", HasAttr)] ≫= λ img, attr img "src" with
      | None =>
          if Str.truthy url
          then ∃ video,
                 r = Some video ∧ video !! "url" = Some url ∧ video !! "thumbnail" = None
          else r = None
      | Some src =>
          match urljoin base_url src with
          | Raise _ => r = None
          | Ok thumbnail =>
              if Str.truthy url
              then ∃ video,
                     r = Some video ∧ video !! "url" = Some url ∧
                     video !! "thumbnail" = Some thumbnail
              else r = None
          end
      end
  end.

(** Where the url of a candidate comes from.  The first anchor with an
    href below the element decides: its href is the link of the candidate,
    even when the element is itself an anchor with an href of its own.
    Only without such an anchor is the href of the element used, and only
    when the element is an anchor and its href is not empty; an element
    with no link gives no candidate.  The link is joined to the base url,
    and so is the src of the first image: an exception of [urljoin] on
    either, or an empty url, gives the candidate up. *)
Theorem extract_video_data_links elem base_url s :
  ∃ r s',
    extract elem base_url s = Some (Ok r, s') ∧
    (∀ link, find elem (TagName "a") [("href", HasAttr)] = Some link →
       ∃ href, attr link "href" = Some href ∧ candidate_from elem base_url href r) ∧
    (find elem (TagName "a") [("href", HasAttr)] = None →
       ∀ href, tag_name elem = "a" → attr elem "href" = Some href → href ≠ "" →
         candidate_from elem base_url href r) ∧
    (find elem (TagName "a") [("href", HasAttr)] = None →
       tag_name elem ≠ "a" ∨ attr elem "href" = None ∨ attr elem "href" = Some "" →
       r = None).
Proof.
  set (target :=
    match find elem (TagName "a") [("href", HasAttr)] with
    | Some link => attr link "href"
    | None =>
        if String.eqb (tag_name elem) "a" && Str.truthy_opt (attr elem "href")
        then attr elem "href" else None
    end).
  set (source := find elem (TagName "img") [("src", HasAttr)] ≫= λ img, attr img "src").
  assert (Hmain : ∃ r s',
    extract elem base_url s = Some (Ok r, s') ∧
    match target with
    | Some href => candidate_from elem base_url href r
    | None => r = None
    end).
  { unfold candidate_from. fold source.
    unfold extract_video_data, try_except, lift, datetime_now.
    unfold mbind at 1 2 3, M_bind, mret, M_ret. cbn beta.
    set (titled := match find elem (TagNames _) [] with Some _ => _ | None => _ end).
    assert (Htitled : titled !! "url" = None ∧ titled !! "thumbnail" = None).
    { subst titled. destruct (find elem (TagNames _) []) as [t|]; [|done].
      by destruct (Str.truthy _). }
    clearbody titled. destruct Htitled as [Hnourl Hnothumb].
    set (linked := match find elem (TagName "a") _ with Some _ => _ | None => _ end).
    assert (Hlinked :
      match target with
      | Some href =>
          match urljoin base_url href with
          | Ok url => ∃ video, linked = Ok video ∧ video !! "url" = Some url ∧
                               video !! "thumbnail" = None
          | Raise e => linked = Raise e
          end
      | None => ∃ video, linked = Ok video ∧ video !! "url" = None ∧
                         video !! "thumbnail" = None
      end).
    { subst linked target.
      destruct (find elem (TagName "a") _) as [l|] eqn:Hfind.
      - destruct (find_has_attr elem l (TagName "a") "href") as [href Hhref]; [done..|].
        unfold subscript. rewrite Hhref. simpl.
        destruct (urljoin base_url href) as [url|e]; simpl; [|done].
        eexists. split; [done|]. by rewrite lookup_insert_eq, lookup_insert_ne.
      - destruct (_ && _) eqn:Hown; [|by eexists].
        apply andb_prop in Hown as [_ Htruthy].
        unfold subscript. destruct (attr elem "href") as [href|]; [|done]. simpl.
        destruct (urljoin base_url href) as [url|e]; simpl; [|done].
        eexists. split; [done|]. by rewrite lookup_insert_eq, lookup_insert_ne. }
    clearbody linked.
    destruct linked as [video|e]; cbn.
    2:{ exists None, s. split; [done|]. destruct target as [href|]; [|done].
        destruct (urljoin base_url href); [by destruct Hlinked as (? & [=] & _)|done]. }
    set (pictured := match find elem (TagName "img") _ with Some _ => _ | None => _ end).
    assert (Hpictured :
      match source with
      | Some src =>
          match urljoin base_url src with
          | Ok thumbnail => pictured = Ok (<["thumbnail":=thumbnail]> video)
          | Raise e => pictured = Raise e
          end
      | None => pictured = Ok video
      end).
    { subst pictured source.
      destruct (find elem (TagName "img") _) as [i|] eqn:Hfind; [|done].
      destruct (find_has_attr elem i (TagName "img") "src") as [src Hsrc]; [done..|].
      unfold subscript. cbn. rewrite Hsrc. cbn. by destruct (urljoin base_url src). }
    clearbody pictured.
    assert (Hvideo : ∃ url, video !! "url" = url ∧ video !! "thumbnail" = None ∧
              match target with
              | Some href => urljoin base_url href = Ok (default "" url) ∧ is_Some url
              | None => url = None
              end).
    { destruct target as [href|].
      - destruct (urljoin base_url href) as [url|]; [|done].
        destruct Hlinked as (v & [= <-] & Hu & Ht). exists (Some url). eauto.
      - destruct Hlinked as (v & [= <-] & Hu & Ht). by exists None. }
    clear Hlinked. destruct Hvideo as (url & Hurl & Hthumb & Htarget).
    destruct pictured as [video'|e]; cbn.
    2:{ exists None, s. split; [done|]. destruct target as [href|]; [|done].
        destruct Htarget as [-> _].
        destruct source as [src|]; [|done]. by destruct (urljoin base_url src). }
    set (final := <["scraped_at":=_]> _).
    assert (Hfinal : final !! "url" = video' !! "url" ∧
                     final !! "thumbnail" = video' !! "thumbnail").
    { subst final. rewrite !lookup_insert_ne by done.
      repeat case_match; by rewrite ?lookup_insert_ne by done. }
    clearbody final. destruct Hfinal as [Hfurl Hfthumb].
    eexists _, _. split; [done|].
    assert (video' !! "url" = url ∧
            video' !! "thumbnail"
              = source ≫= λ src,
                  match urljoin base_url src with Ok t => Some t | Raise _ => None end)
      as [Hurl' Hthumb'].
    { destruct source as [src|]; cbn.
      - destruct (urljoin base_url src) as [t|]; [|done]. injection Hpictured as ->.
        by rewrite lookup_insert_ne, lookup_insert_eq.
      - by injection Hpictured as ->. }
    rewrite Hfurl, Hurl'.
    destruct target as [href|].
    - destruct Htarget as [-> [u ->]]. cbn.
      destruct source as [src|]; cbn in *.
      + destruct (urljoin base_url src) as [t|]; [|done].
        destruct (Str.truthy u); [|done]. exists final. split_and!; [done|congruence..].
      + destruct (Str.truthy u); [|done]. exists final. split_and!; [done|congruence..].
    - by rewrite Htarget. }
  destruct Hmain as (r & s' & Hrun & Hr). exists r, s'. split; [done|].
  subst target. split_and!.
  - intros link Hlink. rewrite Hlink in Hr.
    destruct (find_has_attr elem link (TagName "a") "href") as [href Hhref]; [done..|].
    exists href. split; [done|]. by rewrite Hhref in Hr.
  - intros Hnone href Htag Hhref Hne. rewrite Hnone, Htag, Hhref in Hr.
    cbn in Hr. unfold Str.truthy in Hr. by destruct href.
  - intros Hnone Hown. rewrite Hnone in Hr.
    destruct Hown as [Htag|[Hhref|Hhref]].
    + apply String.eqb_neq in Htag. by rewrite Htag in Hr.
    + rewrite Hhref in Hr. by rewrite andb_false_r in Hr.
    + rewrite Hhref in Hr. by rewrite andb_false_r in Hr.
Qed.

End ExtractionLinks.

(** * More on the info-only resolution utility *)

(** The keys of the two records of [get_video_info]. *)
Definition info_keys : gset string :=
  {["success"; "title"; "thumbnail"; "duration"; "uploader"; "view_count";
    "like_count"; "description"; "formats"; "best_audio_format"; "best_video_format"]}.

Definition failure_keys : gset string :=
  {["success"; "error"; "title"; "thumbnail"; "duration"]}.

(** When [get_video_info] succeeds.  The record has [success] true exactly
    when the extractor gives a dictionary whose description, if it has one,
    is a string or a list, and whose formats, if it has them, are a list, a
    string or a dictionary: a description or formats present with the value
    [None] make the call fail, since the default of [get] stands in for a
    missing key only.  A record of success has the eleven keys of the result
    and no [error]; any other record has [success] false and the five keys
    of a failure.  Both have a title, a thumbnail and a duration. *)
Theorem get_video_info_succeeds_iff (extract_info : string → result YoutubeInfo.pyval) url :
  let info := YoutubeInfo.get_video_info extract_info url in
  (info !! "success" = Some (YoutubeInfo.PBool true) ↔
   ∃ d, extract_info url = Ok (YoutubeInfo.PDict d) ∧
     match YoutubeInfo.assoc "description" d with
     | None | Some (YoutubeInfo.PStr _) | Some (YoutubeInfo.PList _) => True
     | Some _ => False
     end ∧
     match YoutubeInfo.assoc "formats" d with
     | None | Some (YoutubeInfo.PStr _) | Some (YoutubeInfo.PList _)
     | Some (YoutubeInfo.PDict _) => True
     | Some _ => False
     end) ∧
  (info !! "success" = Some (YoutubeInfo.PBool true) ∧ dom info = info_keys ∨
   info !! "success" = Some (YoutubeInfo.PBool false) ∧ dom info = failure_keys) ∧
  is_Some (info !! "title") ∧ is_Some (info !! "thumbnail") ∧ is_Some (info !! "duration").
Proof.
  intros info. subst info. unfold YoutubeInfo.get_video_info.
  assert (Hfail : ∀ e,
    let info : gmap string YoutubeInfo.pyval := list_to_map
      [("success", YoutubeInfo.PBool false); ("error", YoutubeInfo.PStr e);
       ("title", YoutubeInfo.PStr "YouTube Video"); ("thumbnail", YoutubeInfo.PStr "");
       ("duration", YoutubeInfo.PInt 0)] in
    info !! "success" = Some (YoutubeInfo.PBool false) ∧ dom info = failure_keys ∧
    is_Some (info !! "title") ∧ is_Some (info !! "thumbnail") ∧ is_Some (info !! "duration")).
  { intros e info. subst info. split_and!; [done| |by eexists..].
    unfold failure_keys. cbn [list_to_map foldr fst snd uncurry]. rewrite !dom_insert_L. set_solver. }
  cbn zeta in Hfail.
  destruct (extract_info url) as [v|e];
    cbn -[list_to_map YoutubeInfo.slice_to YoutubeInfo.len default YoutubeInfo.assoc];
    [|destruct (Hfail e) as (Hs & Hd & Ht & Hth & Hdu);
      split_and!; [|by right|done..];
      split; [intros Htrue; rewrite Hs in Htrue; done|by intros (? & [=] & _)]].
  destruct v as [| | | | |d];
    cbn -[list_to_map YoutubeInfo.slice_to YoutubeInfo.len default YoutubeInfo.assoc];
    try (match goal with
         | |- context [list_to_map (("success", _) :: ("error", YoutubeInfo.PStr ?e) :: _)] =>
             destruct (Hfail e) as (Hs & Hd & Ht & Hth & Hdu)
         end;
         split_and!; [|by right|done..];
         split; [intros Htrue; rewrite Hs in Htrue; done|by intros (? & [=] & _)]).
  set (description := default _ (YoutubeInfo.assoc "description" d)).
  set (formats := default _ (YoutubeInfo.assoc "formats" d)).
  assert (Hdescription :
    match YoutubeInfo.assoc "description" d with
    | None | Some (YoutubeInfo.PStr _) | Some (YoutubeInfo.PList _) => True
    | Some _ => False
    end ↔ ∃ v, YoutubeInfo.slice_to 500 description = Ok v).
  { subst description. destruct (YoutubeInfo.assoc "description" d) as [[]|];
      cbn -[String.append]; split; try done; eauto; by intros [? [=]]. }
  assert (Hformats :
    match YoutubeInfo.assoc "formats" d with
    | None | Some (YoutubeInfo.PStr _) | Some (YoutubeInfo.PList _)
    | Some (YoutubeInfo.PDict _) => True
    | Some _ => False
    end ↔ ∃ v, YoutubeInfo.len formats = Ok v).
  { subst formats. destruct (YoutubeInfo.assoc "formats" d) as [[]|];
      cbn -[String.append]; split; try done; eauto; by intros [? [=]]. }
  clearbody description formats.
  destruct (YoutubeInfo.slice_to 500 description) as [short|e] eqn:Hslice;
    cbn -[list_to_map YoutubeInfo.len].
  - destruct (YoutubeInfo.len formats) as [count|e] eqn:Hlen; cbn -[list_to_map].
    + split_and!; [|left; split; [done|]|by eexists..].
      * split; [intros _|done]. exists d. split_and!; [done|..].
        -- apply Hdescription. eauto.
        -- apply Hformats. eauto.
      * unfold info_keys. cbn [list_to_map foldr fst snd uncurry].
        rewrite !dom_insert_L. set_solver.
    + destruct (Hfail e) as (Hs & Hd & Ht & Hth & Hdu).
      split_and!; [|by right|done..].
      split; [intros Htrue; rewrite Hs in Htrue; done|].
      intros (d' & [= <-] & _ & [? [=]]%Hformats).
  - destruct (Hfail e) as (Hs & Hd & Ht & Hth & Hdu).
    split_and!; [|by right|done..].
    split; [intros Htrue; rewrite Hs in Htrue; done|].
    intros (d' & [= <-] & [? [=]]%Hdescription & _).
Qed.

(** The script prints exactly one record, whatever its arguments.  Without
    a url it prints the record of a usage error, which has the one key
    [error] and no key [success], and ends with status 1.  With a url it
    prints the record of [get_video_info] for it and ends with status 0,
    also when the extraction failed: a failed extraction shows in the key
    [success] of the record, not in the status. *)
Theorem info_main_prints_one_record (extract_info : string → result YoutubeInfo.pyval) argv :
  ∃ record status,
    YoutubeInfo.main extract_info argv = ([record], status) ∧
    (status = 1 ↔ (length argv < 2)%nat) ∧
    (status = 0 ↔ (2 ≤ length argv)%nat) ∧
    ((length argv < 2)%nat →
     record = {["error" := YoutubeInfo.PStr "URL required"]} ∧ record !! "success" = None) ∧
    (∀ url, argv !! 1%nat = Some url →
     record = YoutubeInfo.get_video_info extract_info url ∧ is_Some (record !! "success")).
Proof.
  unfold YoutubeInfo.main. destruct (Nat.ltb_spec (length argv) 2) as [Hlt|Hge].
  - eexists _, _. split_and!; [done|done|split; [done|lia]|done|].
    intros url Hurl%lookup_lt_Some. lia.
  - destruct (lookup_lt_is_Some_2 argv 1%nat) as [url Hurl]; [lia|]. rewrite Hurl.
    eexists _, _. split_and!; [done|split; [done|lia]|done|lia|].
    intros url' [= <-]. split; [done|].
    unfold YoutubeInfo.get_video_info.
    destruct (_ ≫= _) as [info|e] eqn:Hrun; simpl; [|by eexists].
    destruct (extract_info url) as [v|]; [|done]. simpl in Hrun.
    destruct v; simpl in Hrun; try done.
    destruct (YoutubeInfo.slice_to _ _); [|done]. simpl in Hrun.
    destruct (YoutubeInfo.len _); [|done]. simpl in Hrun. injection Hrun as <-.
    by eexists.
Qed.

(** * The download utility *)

Lemma string_prefix_refl s : String.prefix s s = true.
Proof.
  induction s as [|c s IH]; [done|]. cbn [String.prefix].
  by destruct (Ascii.ascii_dec c c).
Qed.

Lemma replace_from_skip old new s :
  YoutubeDownloader.replace_from old new (String.length s) s = "".
Proof. induction s as [|c s IH]; [done|]. simpl. apply IH. Qed.

(** [replace] removes a suffix [old] from a string that has the first
    character of [old] nowhere else. *)
Lemma replace_suffix first old s :
  Str.contains (String first "") s = false →
  YoutubeDownloader.replace (String first old) "" (s +:+ String first old) = s.
Proof.
  unfold YoutubeDownloader.replace. cbn [String.eqb].
  induction s as [|c s IH]; intros Hs.
  - change ("" +:+ String first old) with (String first old).
    cbn [YoutubeDownloader.replace_from String.prefix].
    destruct (Ascii.ascii_dec first first) as [_|]; [|done].
    rewrite string_prefix_refl.
    cbn [String.length Nat.sub]. rewrite Nat.sub_0_r.
    change ("" +:+ ?x) with x. apply replace_from_skip.
  - cbn [Str.contains String.prefix] in Hs.
    apply orb_false_elim in Hs as [Hc Hs].
    change (String c s +:+ String first old) with (String c (s +:+ String first old)).
    cbn [YoutubeDownloader.replace_from String.prefix].
    destruct (Ascii.ascii_dec first c) as [->|Hne].
    { by destruct s. }
    f_equal. by apply IH.
Qed.

Lemma contains_suffix needle s :
  Str.contains needle (s +:+ needle) = true.
Proof.
  induction s as [|c s IH].
  - change ("" +:+ needle) with needle. destruct needle as [|a needle]; [done|].
    cbn [Str.contains]. by rewrite string_prefix_refl.
  - change (String c s +:+ needle) with (String c (s +:+ needle)).
    cbn [Str.contains]. rewrite IH. apply orb_true_r.
Qed.

Section Download.

Import YoutubeInfo YoutubeDownloader.

Variable extract_info : ydl_opts → string → result pyval.
Variable path_exists : string → bool.
Variable path_getsize : string → result Z.
Variable str_compound : pyval → string.

Local Abbreviation download :=
  (download_youtube_video extract_info path_exists path_getsize str_compound).
Local Abbreviation str := (YoutubeDownloader.str str_compound).

(** The keys of the two records of [download_youtube_video]. *)
Definition result_keys : gset string :=
  {["success"; "video_id"; "title"; "duration"; "file_path"; "file_size"; "format";
    "quality"]}.

Definition error_keys : gset string := {["success"; "error"; "video_id"]}.

(** The two records. *)
Definition succeeded (video_id quality format : string) (d : list (string * pyval))
    (file : string) (size : Z) : list string * gmap string pyval :=
  ([], list_to_map
         [("success", PBool true); ("video_id", PStr video_id);
          ("title", default (PStr "Unknown") (assoc "title" d));
          ("duration", default (PInt 0) (assoc "duration" d));
          ("file_path", PStr file); ("file_size", PInt size); ("format", PStr format);
          ("quality", PStr quality)]).

Definition failed (video_id e : string) : list string * gmap string pyval :=
  (["Error downloading video: " +:+ e],
   list_to_map [("success", PBool false); ("error", PStr e); ("video_id", PStr video_id)]).

(** The file of a download: an output path that is not empty, or else the
    id that the extractor gave, followed by .mp3 for the format mp3 and by
    .mp4 for any other format. *)
Definition named (format : string) (output_path : option string)
    (d : list (string * pyval)) (file : string) : Prop :=
  (output_path = Some file ∧ file ≠ "") ∨
  ((output_path = None ∨ output_path = Some "") ∧
   ∃ id, assoc "id" d = Some id ∧
         file = str id +:+ (if String.eqb format "mp3" then ".mp3" else ".mp4")).

Lemma or_else_given file other : file ≠ "" → or_else (Some file) other = Ok file.
Proof. by destruct file. Qed.

Lemma or_else_missing output_path other :
  output_path = None ∨ output_path = Some "" → or_else output_path other = other.
Proof. by intros [->| ->]. Qed.

Lemma download_file_name format output_path info :
  (if String.eqb format "mp3"
   then or_else output_path (getitem info "id" ≫= λ id, Ok (str id +:+ ".mp3"))
   else or_else output_path (getitem info "id" ≫= λ id, Ok (str id +:+ ".mp4")))
  = or_else output_path
      (getitem info "id" ≫= λ id,
       Ok (str id +:+ (if String.eqb format "mp3" then ".mp3" else ".mp4"))).
Proof. by destruct (String.eqb format "mp3"). Qed.

Lemma named_file_name format output_path d file :
  named format output_path d file ↔
  or_else output_path
    (getitem (PDict d) "id" ≫= λ id,
     Ok (str id +:+ (if String.eqb format "mp3" then ".mp3" else ".mp4"))) = Ok file.
Proof.
  unfold named. split.
  - intros [[-> Hne]|[Hnone (id & Hid & ->)]].
    + by apply or_else_given.
    + rewrite or_else_missing by done. cbn. by rewrite Hid.
  - destruct output_path as [[|c path]|]; cbn.
    + destruct (assoc "id" d) as [id|]; cbn; [|done]. intros [= <-]. right. eauto.
    + intros [= <-]. by left.
    + destruct (assoc "id" d) as [id|]; cbn; [|done]. intros [= <-]. right. eauto.
Qed.

(** The run of [download_youtube_video], step by step. *)
Lemma download_run video_id quality format output_path :
  download video_id quality format output_path =
    match extract_info (options quality format output_path)
            ("https://www.youtube.com/watch?v=" +:+ video_id) with
    | Raise e => failed video_id e
    | Ok info =>
        match or_else output_path
                (getitem info "id" ≫= λ id,
                 Ok (str id +:+ (if String.eqb format "mp3" then ".mp3" else ".mp4"))) with
        | Raise e => failed video_id e
        | Ok file =>
            match info with
            | PDict d =>
                if path_exists file then
                  match path_getsize file with
                  | Ok size => succeeded video_id quality format d file size
                  | Raise e => failed video_id e
                  end
                else succeeded video_id quality format d file 0
            | _ => failed video_id ("'" +:+ type_name info +:+ "' object has no attribute 'get'")
            end
        end
    end.
Proof.
  unfold download_youtube_video, succeeded, failed.
  destruct (extract_info _ _) as [info|e]; [|done].
  cbn -[list_to_map or_else getitem String.append]. rewrite download_file_name.
  destruct (or_else _ _) as [file|e]; [|done].
  cbn -[list_to_map String.append].
  destruct info as [| | | | |d]; try done.
  cbn -[list_to_map String.append].
  destruct (path_exists file); [|done].
  by destruct (path_getsize file).
Qed.

(** [download_youtube_video] never raises, and what it returns is settled
    by what happens.  It asks the extractor for the watch page of the video.
    When the extractor raises [e], the record is that of a failure with the
    error [e], and one line with [e] is printed; so it is when what the
    extractor gives is no dictionary, when it has no id and no output path
    was given, and when the size of the file cannot be read, each with the
    message of its exception.  When the extractor gives a dictionary and the
    file has a name, nothing is printed and the record is that of a success:
    the title and duration of the dictionary (or 'Unknown' and 0), the
    format and quality of the call, the file, and its size, or 0 when it
    does not exist.  A success has eight keys and a failure three, and both
    name the video. *)
Theorem download_youtube_video_outcome video_id quality format output_path :
  let r := download video_id quality format output_path in
  let info :=
    extract_info (options quality format output_path)
      ("https://www.youtube.com/watch?v=" +:+ video_id) in
  (∀ e, info = Raise e → r = failed video_id e) ∧
  (∀ v, info = Ok v → (∀ d, v ≠ PDict d) →
     (∀ file, output_path = Some file → file ≠ "" →
        r = failed video_id ("'" +:+ type_name v +:+ "' object has no attribute 'get'")) ∧
     (output_path = None ∨ output_path = Some "" →
        ∃ e, getitem v "id" = Raise e ∧ r = failed video_id e)) ∧
  (∀ d, info = Ok (PDict d) →
     output_path = None ∨ output_path = Some "" → assoc "id" d = None →
     r = failed video_id "'id'") ∧
  (∀ d file, info = Ok (PDict d) → named format output_path d file →
     (path_exists file = false → r = succeeded video_id quality format d file 0) ∧
     (∀ size, path_exists file = true → path_getsize file = Ok size →
        r = succeeded video_id quality format d file size) ∧
     (∀ e, path_exists file = true → path_getsize file = Raise e →
        r = failed video_id e)) ∧
  (∀ d file size,
     dom (succeeded video_id quality format d file size).2 = result_keys ∧
     (succeeded video_id quality format d file size).2 !! "success" = Some (PBool true) ∧
     (succeeded video_id quality format d file size).2 !! "file_path" = Some (PStr file)) ∧
  (∀ e,
     dom (failed video_id e).2 = error_keys ∧
     (failed video_id e).2 !! "success" = Some (PBool false) ∧
     (failed video_id e).2 !! "error" = Some (PStr e)) ∧
  r.2 !! "video_id" = Some (PStr video_id).
Proof.
  intros r info. subst r info. rewrite download_run. split_and!.
  - by intros e ->.
  - intros v -> Hv. split.
    + intros file -> Hne. rewrite or_else_given by done.
      destruct v as [| | | | |d]; try done. by destruct (Hv d).
    + intros Hnone. rewrite or_else_missing by done.
      destruct v as [| | | | |d]; try (by eexists). by destruct (Hv d).
  - intros d -> Hnone Hid. rewrite or_else_missing by done. cbn. by rewrite Hid.
  - intros d file -> Hfile%named_file_name. rewrite Hfile. split_and!.
    + by intros ->.
    + by intros size -> ->.
    + by intros e -> ->.
  - intros d file size. split_and!; [|done..].
    unfold succeeded, result_keys. cbn [snd list_to_map foldr fst uncurry].
    rewrite !dom_insert_L. set_solver.
  - intros e. split_and!; [|done..].
    unfold failed, error_keys. cbn [snd list_to_map foldr fst uncurry].
    rewrite !dom_insert_L. set_solver.
  - destruct (extract_info _ _) as [v|e]; [|done].
    destruct (or_else _ _) as [file|e]; [|done].
    destruct v; try done. destruct (path_exists file); [|done].
    by destruct (path_getsize file).
Qed.

(** When a download succeeds, and which file it reports.  The record has
    [success] true exactly when the extractor gives a dictionary, the file
    has a name, and asking for the size of that file, when it exists, does
    not fail; in every other case [success] is false.  The file reported is
    then the one so named: an output path that is not empty, and the id of
    the video is then not needed; or else the id the extractor gave,
    followed by .mp3 when the format is mp3 and by .mp4 for every other
    format, so that a video without an id is a failure. *)
Theorem download_succeeds_iff video_id quality format output_path :
  let r := download video_id quality format output_path in
  let downloadable (d : list (string * pyval)) (file : string) : Prop :=
    extract_info (options quality format output_path)
      ("https://www.youtube.com/watch?v=" +:+ video_id) = Ok (PDict d) ∧
    named format output_path d file ∧
    (path_exists file = true → ∃ size, path_getsize file = Ok size) in
  (r.2 !! "success" = Some (PBool true) ↔ ∃ d file, downloadable d file) ∧
  (r.2 !! "success" = Some (PBool false) ↔ ¬ ∃ d file, downloadable d file) ∧
  (∀ d file, downloadable d file → r.2 !! "file_path" = Some (PStr file)).
Proof.
  intros r downloadable. subst r downloadable. cbn beta. rewrite download_run.
  destruct (extract_info _ _) as [v|e] eqn:Hinfo.
  2:{ split_and!; [split; [done|by intros (? & ? & [=] & _)]| |by intros ? ? ([=] & _)].
      split; [|done]. by intros _ (? & ? & [=] & _). }
  destruct (or_else _ _) as [file|e] eqn:Hfile.
  2:{ assert (∀ d file, v = PDict d → ¬ named format output_path d file) as Hno.
      { intros d file -> Hnamed%named_file_name. congruence. }
      split_and!.
      - split; [done|]. intros (d & file & [= ->] & Hnamed & _). by destruct (Hno d file).
      - split; [|done]. intros _ (d & file & [= ->] & Hnamed & _). by destruct (Hno d file).
      - intros d file ([= ->] & Hnamed & _). by destruct (Hno d file). }
  destruct v as [| | | | |d];
    try (split_and!; [split; [done|by intros (? & ? & [=] & _)]| |by intros ? ? ([=] & _)];
         split; [|done]; by intros _ (? & ? & [=] & _)).
  apply named_file_name in Hfile.
  assert (∀ d' file', Ok (PDict d) = Ok (PDict d') → named format output_path d' file' →
            d' = d ∧ file' = file) as Hsame.
  { intros d' file' [= <-] Hnamed%named_file_name.
    apply named_file_name in Hfile. split; [done|congruence]. }
  destruct (path_exists file) eqn:Hexists.
  - destruct (path_getsize file) as [size|e] eqn:Hsize.
    + split_and!.
      * split; [intros _|done]. exists d, file. split_and!; [done..|]. by eauto.
      * split; [done|]. intros Hno. destruct Hno. exists d, file.
        split_and!; [done..|]. by eauto.
      * intros d' file' (Heq & Hnamed & _). by destruct (Hsame d' file' Heq Hnamed) as [-> ->].
    + assert (¬ ∃ d' file', Ok (PDict d) = Ok (PDict d') ∧ named format output_path d' file' ∧
                (path_exists file' = true → ∃ size, path_getsize file' = Ok size)) as Hno.
      { intros (d' & file' & Heq & Hnamed & Hsz).
        destruct (Hsame d' file' Heq Hnamed) as [-> ->].
        destruct (Hsz Hexists) as [size ?]. congruence. }
      split_and!; [split; [done|by intros ?]|by split| ].
      intros d' file' H. destruct Hno. by exists d', file'.
  - split_and!.
    + split; [intros _|done]. exists d, file. split_and!; [done..|]. congruence.
    + split; [done|]. intros Hno. destruct Hno. exists d, file.
      split_and!; [done..|]. congruence.
    + intros d' file' (Heq & Hnamed & _). by destruct (Hsame d' file' Heq Hnamed) as [-> ->].
Qed.

(** How the quality reaches the options of the extractor.  For the format
    mp3 the best audio is asked for, and the audio is extracted to mp3 at
    the rate named by the quality when it has the form of a rate followed by
    kbps, and at 192 whenever the quality does not contain kbps.  For any
    other format no audio is extracted, and a quality that is a height
    followed by p bounds the height of the video asked for. *)
Theorem quality_reaches_the_options quality format output_path :
  let ydl_opts := options quality format output_path in
  (format = "mp3" →
   YoutubeDownloader.format ydl_opts = "bestaudio/best" ∧
   keepvideo ydl_opts = Some false ∧
   ∃ rate,
     postprocessors ydl_opts
       = Some [ {| key := "FFmpegExtractAudio"; preferredcodec := "mp3";
                   preferredquality := rate |} ] ∧
     (Str.contains "kbps" quality = false → rate = "192") ∧
     (∀ digits, quality = digits +:+ "kbps" → Str.contains "k" digits = false →
        rate = digits)) ∧
  (format ≠ "mp3" →
   postprocessors ydl_opts = None ∧
   keepvideo ydl_opts = None ∧
   (∀ height, quality = height +:+ "p" → Str.contains "p" height = false →
      YoutubeDownloader.format ydl_opts = "best[height<=" +:+ height +:+ "]")) ∧
  (∀ path, output_path = Some path → path ≠ "" → outtmpl ydl_opts = path) ∧
  (output_path = None ∨ output_path = Some "" → outtmpl ydl_opts = "%(id)s.%(ext)s").
Proof.
  intros ydl_opts. subst ydl_opts. unfold options. split_and!.
  - intros ->. cbn -[replace Str.contains]. split_and!; [done..|].
    eexists. split_and!; [done| |].
    + by intros ->.
    + intros digits -> Hdigits. rewrite contains_suffix. by apply replace_suffix.
  - intros Hformat%String.eqb_neq. rewrite Hformat. cbn -[replace]. split_and!; [done..|].
    intros height -> Hheight. by rewrite replace_suffix.
  - intros path -> Hpath. destruct (String.eqb format "mp3"); cbn; by destruct path.
  - intros [->| ->]; by destruct (String.eqb format "mp3").
Qed.

(** The script asks for a video, a quality and a format.  With fewer
    arguments it prints the usage line and nothing else, and ends with
    status 1.  Otherwise it runs [download_youtube_video] on
    the first three arguments, with the fourth as output path when there is
    one, prints what the call printed and then its record, and ends with
    status 0, also when the download failed. *)
Theorem download_main_reports_in_the_record argv :
  let run := main extract_info path_exists path_getsize str_compound in
  ((length argv < 4)%nat →
   ∃ usage, run argv = ([Text usage], 1)) ∧
  (∀ video_id quality format,
     argv !! 1%nat = Some video_id → argv !! 2%nat = Some quality →
     argv !! 3%nat = Some format →
     let result := download video_id quality format (argv !! 4%nat) in
     run argv = ((Text <$> result.1) ++ [Json result.2], 0) ∧
     result.2 !! "video_id" = Some (PStr video_id) ∧
     is_Some (result.2 !! "success")).
Proof.
  intros run. subst run. unfold main. split.
  - intros Hlt. apply Nat.ltb_lt in Hlt. rewrite Hlt. by eexists.
  - intros video_id quality format H1 H2 H3.
    assert (4 ≤ length argv)%nat as Hlen by (apply lookup_lt_Some in H3; lia).
    assert (Hrecord : ∀ output_path,
      (download video_id quality format output_path).2 !! "video_id"
        = Some (PStr video_id) ∧
      is_Some ((download video_id quality format output_path).2 !! "success")).
    { intros output_path. unfold download_youtube_video.
      destruct (_ ≫= _) as [[lines record]|e] eqn:Hrun; cbn; [|by eauto].
      destruct (extract_info _ _) as [info|]; [|done]. cbn -[list_to_map] in Hrun.
      destruct (if String.eqb format "mp3" then _ else _) as [file|]; [|done].
      cbn -[list_to_map] in Hrun.
      destruct (dict_get info "title" _); [|done]. cbn -[list_to_map] in Hrun.
      destruct (dict_get info "duration" _); [|done]. cbn -[list_to_map] in Hrun.
      destruct (if path_exists file then _ else _); [|done].
      cbn -[list_to_map] in Hrun. injection Hrun as <- <-. by eauto. }
    destruct (Nat.ltb_spec (length argv) 4) as [|_]; [lia|].
    unfold argument. rewrite H1, H2, H3. cbn -[download_youtube_video Nat.ltb].
    destruct (Nat.ltb_spec 4 (length argv)) as [Hlt|Hge].
    + destruct (lookup_lt_is_Some_2 argv 4%nat Hlt) as [path Hpath]. rewrite Hpath.
      cbn -[download_youtube_video]. split; [done|apply Hrecord].
    + rewrite (lookup_ge_None_2 argv 4%nat) by lia.
      cbn -[download_youtube_video]. split; [done|apply Hrecord].
Qed.

End Download.
